(** * Subsidy portal server: a model of [server.js] and its properties

    The server is a set of Express route handlers, each of which runs one
    or more SQL statements against a MySQL database and maps the outcome to
    an HTTP response.  The development below embeds

    - the JSON values a request body carries, with the JavaScript
      coercions the handlers apply to them ([!x], [isNaN], [<=], [||]);
    - the three tables declared in [setupDatabase], with the constraints
      of their [CREATE TABLE] statements (column types, [NOT NULL],
      [UNIQUE], the [ENUM] of roles, the foreign key of [progress_logs]);
    - the SQL statements the handlers issue, as functions on the database
      state that either fail with an error code or give the next state;
    - the route handlers, as functions from a database state and a request
      to the next state and the response.

    Conventions of the model.

    - A field of a request body is missing or a JSON scalar; arrays and
      objects as field values are outside the model.
    - A number is carried as the rational that its decimal notation in
      JavaScript denotes, in lowest terms: the number the statement
      gives the database.
    - The database runs in strict SQL mode (the MySQL default): a value
      that does not fit its column is rejected.  A number that goes into
      an [INT] or [DECIMAL] column is rounded first, half away from
      zero, and [SUM] comes back from the driver as decimal text.
    - Strings in the database are compared by the collation of their
      column, given by its sort key [collate]: [WHERE], [UNIQUE],
      [ORDER BY] and the names of an [ENUM] all go by the key.
    - The statements of one handler run on one session, and the database
      is reachable: a statement fails only by what it is given.  A
      statement that fails has no effect; the gaps a storage engine may
      leave in [AUTO_INCREMENT] numbers are outside the model.
    - A route parameter [:vendorId] is carried as the integer the
      database reads it as.
    - What JavaScript, bcrypt and MySQL do to the text of a string (reading
      it as a number, printing a number, hashing, the sort key of the
      collation) is taken as a parameter, [Platform]. *)

From Stdlib Require Import ZArith QArith Qcanon List String Ascii Bool Lia.
From Stdlib Require Import Permutation Sorted.
From Stdlib Require Import DecimalString.
Import ListNotations.

Local Open Scope string_scope.
Local Open Scope list_scope.
Local Open Scope Z_scope.

(** ** Results of fallible computations *)

(** Error codes of the database ([err.code] of a rejected query). *)
Inductive sql_error : Type :=
| ER_DUP_ENTRY
| ER_NO_REFERENCED_ROW_2
| ER_DATA_TOO_LONG
| ER_WARN_DATA_OUT_OF_RANGE
| ER_TRUNCATED_WRONG_VALUE_FOR_FIELD
| WARN_DATA_TRUNCATED
| ER_BAD_NULL_ERROR
| ER_TRUNCATE_ILLEGAL_FK.

(** What a handler's [catch (err)] can receive: a rejected query, or the
    error bcrypt raises when it is handed something that is not a string. *)
Inductive error : Type :=
| SqlError (code : sql_error)
| BcryptError.

Definition result (A : Type) : Type := (error + A)%type.

Definition ok {A} (a : A) : result A := inr a.
Definition throw {A} (e : error) : result A := inl e.
Definition sql_throw {A} (c : sql_error) : result A := inl (SqlError c).

Definition bind {A B} (m : result A) (k : A -> result B) : result B :=
  match m with
  | inl e => inl e
  | inr a => k a
  end.

Notation "'await' x <- m ;; k" := (bind m (fun x => k))
  (at level 61, x name, m at next level, right associativity).

(** [err.code === 'ER_DUP_ENTRY'] *)
Definition is_ER_DUP_ENTRY (e : error) : bool :=
  match e with
  | SqlError ER_DUP_ENTRY => true
  | _ => false
  end.

(** ** JavaScript values of a parsed JSON body *)

(** A whole number as a number. *)
Definition number_of_Z (n : Z) : Qc := Q2Qc (inject_Z n).

Coercion number_of_Z : Z >-> Qc.

Inductive jsval : Type :=
| JUndefined
| JNull
| JBool (b : bool)
| JNum (n : Qc)
| JStr (s : string).

(** [req.body]: property lookup gives [undefined] for a missing field. *)
Definition object : Type := string -> jsval.

Definition empty_object : object := fun _ => JUndefined.

Definition set_field (o : object) (k : string) (v : jsval) : object :=
  fun k' => if String.eqb k' k then v else o k'.

(** An object literal; a later entry of the same name wins. *)
Definition obj (fields : list (string * jsval)) : object :=
  fold_left (fun o kv => set_field o (fst kv) (snd kv)) fields empty_object.

(** ToBoolean: [!x] is [negb (truthy x)]. *)
Definition truthy (v : jsval) : bool :=
  match v with
  | JUndefined => false
  | JNull => false
  | JBool b => b
  | JNum n => negb (Qnum n =? 0)
  | JStr s => negb (String.eqb s "")
  end.

(** [a || b] *)
Definition js_or (a b : jsval) : jsval := if truthy a then a else b.

(** [a !== b] on a stored string and a request value. *)
Definition strict_neq_string (a : string) (b : jsval) : bool :=
  match b with
  | JStr s => negb (String.eqb a s)
  | _ => true
  end.

(** Decimal text of an integer, as the database prints the value of an
    integer column or of a sum of one. *)
Definition number_to_string (n : Z) : string :=
  NilZero.string_of_int (Z.to_int n).

(** The integer nearest to [a / d]; a half goes away from zero. *)
Definition round_half_away (a : Z) (d : positive) : Z :=
  if 0 <=? a
  then (2 * a + Zpos d) / (2 * Zpos d)
  else - ((2 * (- a) + Zpos d) / (2 * Zpos d)).

(** ** The platform: JavaScript, bcrypt and MySQL on the text of strings *)

Record Platform : Type := {
  (** [Number(s)]; [None] is NaN. *)
  StringToNumber : string -> option Qc;
  (** The text JavaScript and the SQL driver print for a number. *)
  NumberToString : Qc -> string;
  (** [bcrypt.hash(password, saltRounds)] with the salt it drew. *)
  bcrypt_hash : string -> string -> string;
  (** [bcrypt.compare(password, hash)] *)
  bcrypt_compare : string -> string -> bool;
  (** MySQL storing a string in an [INT] column; [None]: not an integer. *)
  sql_cast_int : string -> option Z;
  (** MySQL storing a string in a [DECIMAL(_, 2)] column, in hundredths. *)
  sql_cast_decimal : string -> option Z;
  (** MySQL comparing a string column with a number: the number the
      string counts as. *)
  sql_cmp_number : string -> Qc;
  (** The sort key of a string under the collation of the columns. *)
  collate : string -> string;
  (** MySQL storing a string that names no member in an [ENUM] column:
      the index it reads from the string, if it reads one. *)
  sql_enum_index : string -> option Z;
  (** MySQL storing a number that is not whole in an [ENUM] column: the
      index it takes. *)
  sql_enum_index_of_fraction : Qc -> Z
}.

(** ** Tables *)

Module User.
Record t : Type := {
  id : Z;
  name : string;
  email : string;
  password_hash : string;
  role : string;
  created_at : Z
}.
End User.

Module Vendor.
Record t : Type := {
  id : Z;
  name : string;
  wallet_address : string;
  milestone_goal : Z;
  reward_amount : Z;   (* DECIMAL(10, 2), in hundredths *)
  is_paid : bool;
  created_at : Z
}.

Definition set_is_paid (v : t) (b : bool) : t :=
  {| id := id v; name := name v; wallet_address := wallet_address v;
     milestone_goal := milestone_goal v; reward_amount := reward_amount v;
     is_paid := b; created_at := created_at v |}.
End Vendor.

Module ProgressLog.
Record t : Type := {
  id : Z;
  vendor_id : Z;
  progress : Z;
  timestamp : Z
}.
End ProgressLog.

(** The database: the rows of each table in insertion order, the
    [AUTO_INCREMENT] counter of each table, and the session variable
    [FOREIGN_KEY_CHECKS]. *)
Record DB : Type := {
  users : list User.t;
  vendors : list Vendor.t;
  progress_logs : list ProgressLog.t;
  users_auto_increment : Z;
  vendors_auto_increment : Z;
  progress_logs_auto_increment : Z;
  FOREIGN_KEY_CHECKS : bool
}.

(** The state after [setupDatabase] on a new database. *)
Definition empty_db : DB :=
  {| users := []; vendors := []; progress_logs := [];
     users_auto_increment := 1; vendors_auto_increment := 1;
     progress_logs_auto_increment := 1; FOREIGN_KEY_CHECKS := true |}.

(** [role ENUM('government', 'producer', 'auditor')] *)
Definition role_enum : list string := ["government"; "producer"; "auditor"].

Definition mem_string (s : string) (l : list string) : bool :=
  existsb (String.eqb s) l.

Definition in_int_range (n : Z) : bool :=
  (-2147483648 <=? n) && (n <=? 2147483647).

(** [DECIMAL(10, 2)]: at most ten digits, in hundredths. *)
Definition in_decimal_10_2_range (h : Z) : bool :=
  (-9999999999 <=? h) && (h <=? 9999999999).

(** ** HTTP responses *)

Inductive payload : Type :=
| Message (message : string)
| LoginUser (message : string) (id : Z) (name email role : string)
| VendorAdded (message : string) (vendorId : Z)
| TotalProgress (totalProgress : jsval)
| VendorRows (rows : list Vendor.t).

Record response : Type := {
  status : Z;
  body : payload
}.

Definition res (code : Z) (p : payload) : response :=
  {| status := code; body := p |}.

(** ** A reference platform

    A platform that reads a string of decimal digits as its number and
    everything else as none, prints a number in decimal, compares
    strings without regard to the case of letters, and has a transparent
    stand-in for bcrypt.  It serves to run the handlers on concrete
    requests. *)

Definition digit_value (c : ascii) : option Z :=
  let n := Z.of_nat (nat_of_ascii c) in
  if (48 <=? n) && (n <=? 57) then Some (n - 48) else None.

Fixpoint digits_value (acc : Z) (s : string) : option Z :=
  match s with
  | EmptyString => Some acc
  | String c s' =>
      match digit_value c with
      | Some d => digits_value (acc * 10 + d) s'
      | None => None
      end
  end.

Definition decimal_digits (s : string) : option Z :=
  match s with
  | EmptyString => None
  | _ => digits_value 0 s
  end.

(** The digits of [r / d] after the point, at most [places] of them. *)
Fixpoint fraction_digits (places : nat) (r d : Z) : string :=
  match places with
  | O => ""
  | S places' =>
      if r =? 0 then ""
      else String.append (number_to_string (r * 10 / d))
             (fraction_digits places' (r * 10 mod d) d)
  end.

Definition decimal_text (q : Qc) : string :=
  let a := Z.abs (Qnum q) in
  let d := Zpos (Qden q) in
  String.append (if Qnum q <? 0 then "-" else "")
    (String.append (number_to_string (a / d))
       (if a mod d =? 0 then ""
        else String.append "." (fraction_digits 17 (a mod d) d))).

Definition lower_ascii (c : ascii) : ascii :=
  let n := nat_of_ascii c in
  if ((65 <=? n) && (n <=? 90))%nat then ascii_of_nat (n + 32) else c.

Fixpoint lower (s : string) : string :=
  match s with
  | EmptyString => EmptyString
  | String c s' => String (lower_ascii c) (lower s')
  end.

Definition plain_platform : Platform :=
  {| StringToNumber := fun s =>
       match s with
       | EmptyString => Some (number_of_Z 0)
       | _ => option_map number_of_Z (digits_value 0 s)
       end;
     NumberToString := decimal_text;
     bcrypt_hash := fun password salt => String.append "$2b$10$" password;
     bcrypt_compare := fun password hash =>
       String.eqb hash (String.append "$2b$10$" password);
     sql_cast_int := decimal_digits;
     sql_cast_decimal := fun s => option_map (Z.mul 100) (decimal_digits s);
     sql_cmp_number := fun s =>
       match decimal_digits s with
       | Some n => number_of_Z n
       | None => number_of_Z 0
       end;
     collate := lower;
     sql_enum_index := decimal_digits;
     sql_enum_index_of_fraction := fun q => round_half_away (Qnum q) (Qden q) |}.

Section Server.

Variable P : Platform.

(** ** JavaScript coercions *)

(** ToNumber; [None] is NaN. *)
Definition ToNumber (v : jsval) : option Qc :=
  match v with
  | JUndefined => None
  | JNull => Some (number_of_Z 0)
  | JBool b => Some (number_of_Z (if b then 1 else 0))
  | JNum n => Some n
  | JStr s => StringToNumber P s
  end.

(** [isNaN(x)] *)
Definition isNaN (v : jsval) : bool :=
  match ToNumber v with
  | None => true
  | Some _ => false
  end.

(** [x <= 0]: false when [x] reads as NaN. *)
Definition le_zero (v : jsval) : bool :=
  match ToNumber v with
  | None => false
  | Some n => Qnum n <=? 0
  end.

(** [bcrypt.hash(data, saltRounds)]: rejects data that is not a string. *)
Definition bcrypt_hash_js (data : jsval) (salt : string) : result string :=
  match data with
  | JStr s => ok (bcrypt_hash P s salt)
  | _ => throw BcryptError
  end.

(** [bcrypt.compare(data, hash)]: rejects data that is not a string. *)
Definition bcrypt_compare_js (data : jsval) (hash : string) : result bool :=
  match data with
  | JStr s => ok (bcrypt_compare P s hash)
  | _ => throw BcryptError
  end.

(** ** Storing a bound parameter in a column *)

Definition fits (len : nat) (s : string) : result string :=
  if (String.length s <=? len)%nat then ok s else sql_throw ER_DATA_TOO_LONG.

(** [VARCHAR(len) NOT NULL] *)
Definition store_varchar (len : nat) (v : jsval) : result string :=
  match v with
  | JUndefined | JNull => sql_throw ER_BAD_NULL_ERROR
  | JBool b => fits len (if b then "1" else "0")
  | JNum n => fits len (NumberToString P n)
  | JStr s => fits len s
  end.

Definition int_in_range (n : Z) : result Z :=
  if in_int_range n then ok n else sql_throw ER_WARN_DATA_OUT_OF_RANGE.

(** [INT NOT NULL]: a number is rounded, then has to be in range. *)
Definition store_int (v : jsval) : result Z :=
  match v with
  | JUndefined | JNull => sql_throw ER_BAD_NULL_ERROR
  | JBool b => ok (if b then 1 else 0)
  | JNum n => int_in_range (round_half_away (Qnum n) (Qden n))
  | JStr s =>
      match sql_cast_int P s with
      | Some n => int_in_range n
      | None => sql_throw ER_TRUNCATED_WRONG_VALUE_FOR_FIELD
      end
  end.

Definition decimal_in_range (h : Z) : result Z :=
  if in_decimal_10_2_range h then ok h else sql_throw ER_WARN_DATA_OUT_OF_RANGE.

(** [DECIMAL(10, 2) NOT NULL], in hundredths: a number is rounded to two
    places, then has to be in range. *)
Definition store_decimal_10_2 (v : jsval) : result Z :=
  match v with
  | JUndefined | JNull => sql_throw ER_BAD_NULL_ERROR
  | JBool b => ok (if b then 100 else 0)
  | JNum n => decimal_in_range (round_half_away (Qnum n * 100) (Qden n))
  | JStr s =>
      match sql_cast_decimal P s with
      | Some h => decimal_in_range h
      | None => sql_throw ER_TRUNCATED_WRONG_VALUE_FOR_FIELD
      end
  end.

(** The member of an [ENUM] with a given index, from 1. *)
Definition enum_member (members : list string) (i : Z) : result string :=
  match (if 1 <=? i then nth_error members (Z.to_nat (i - 1)) else None) with
  | Some m => ok m
  | None => sql_throw WARN_DATA_TRUNCATED
  end.

(** The member of an [ENUM] that a string names under the collation. *)
Definition enum_by_name (members : list string) (s : string) : option string :=
  find (fun m => String.eqb (collate P m) (collate P s)) members.

(** The values an [ENUM] column holds: its members, and the empty value
    of index 0 that stands for no member. *)
Definition enum_values (members : list string) : list string := "" :: members.

(** [ENUM(members) NOT NULL]: a number or boolean stands for the member
    of that index, from 1.  A string stands for the member it names under
    the collation, or else for the index the column reads from it, where
    the index 0 is let through and gives the empty value.  What is stored
    is the member, not what was given. *)
Definition store_enum (members : list string) (v : jsval) : result string :=
  match v with
  | JUndefined | JNull => sql_throw ER_BAD_NULL_ERROR
  | JBool b => enum_member members (if b then 1 else 0)
  | JNum n =>
      enum_member members
        (if (Qden n =? 1)%positive then Qnum n
         else sql_enum_index_of_fraction P n)
  | JStr s =>
      match enum_by_name members s with
      | Some m => ok m
      | None =>
          match sql_enum_index P s with
          | Some i => if i =? 0 then ok "" else enum_member members i
          | None => sql_throw WARN_DATA_TRUNCATED
          end
      end
  end.

(** Equality of two strings under the collation. *)
Definition collate_eqb (a b : string) : bool :=
  String.eqb (collate P a) (collate P b).

(** [column = ?] for a string column and a bound parameter. *)
Definition varchar_eq (column : string) (v : jsval) : bool :=
  match v with
  | JUndefined | JNull => false
  | JBool b =>
      Qc_eq_bool (sql_cmp_number P column) (number_of_Z (if b then 1 else 0))
  | JNum m => Qc_eq_bool (sql_cmp_number P column) m
  | JStr s => collate_eqb column s
  end.

(** A [UNIQUE] index: is the key of [s] among the stored ones? *)
Definition key_taken (s : string) (stored : list string) : bool :=
  mem_string (collate P s) (map (collate P) stored).

(** ** SQL statements *)

(** [INSERT INTO users (name, email, password_hash, role) VALUES (?, ?, ?, ?)] *)
Definition insert_user (db : DB) (now : Z) (name email password_hash role : jsval)
  : result DB :=
  await name' <- store_varchar 255 name ;;
  await email' <- store_varchar 255 email ;;
  await hash' <- store_varchar 255 password_hash ;;
  await role' <- store_enum role_enum role ;;
  if key_taken email' (map User.email (users db))
  then sql_throw ER_DUP_ENTRY
  else
    ok {| users := users db ++
            [{| User.id := users_auto_increment db; User.name := name';
                User.email := email'; User.password_hash := hash';
                User.role := role'; User.created_at := now |}];
          vendors := vendors db;
          progress_logs := progress_logs db;
          users_auto_increment := users_auto_increment db + 1;
          vendors_auto_increment := vendors_auto_increment db;
          progress_logs_auto_increment := progress_logs_auto_increment db;
          FOREIGN_KEY_CHECKS := FOREIGN_KEY_CHECKS db |}.

(** [SELECT * FROM users WHERE email = ?] *)
Definition select_users_by_email (db : DB) (email : jsval) : list User.t :=
  filter (fun u => varchar_eq (User.email u) email) (users db).

(** [INSERT INTO vendors (name, wallet_address, milestone_goal, reward_amount)
    VALUES (?, ?, ?, ?)]; gives the state and [insertId]. *)
Definition insert_vendor (db : DB) (now : Z)
  (name wallet_address milestone_goal reward_amount : jsval) : result (DB * Z) :=
  await name' <- store_varchar 255 name ;;
  await wallet' <- store_varchar 42 wallet_address ;;
  await goal' <- store_int milestone_goal ;;
  await reward' <- store_decimal_10_2 reward_amount ;;
  if key_taken wallet' (map Vendor.wallet_address (vendors db))
  then sql_throw ER_DUP_ENTRY
  else
    ok ({| users := users db;
           vendors := vendors db ++
             [{| Vendor.id := vendors_auto_increment db; Vendor.name := name';
                 Vendor.wallet_address := wallet';
                 Vendor.milestone_goal := goal';
                 Vendor.reward_amount := reward';
                 Vendor.is_paid := false; Vendor.created_at := now |}];
           progress_logs := progress_logs db;
           users_auto_increment := users_auto_increment db;
           vendors_auto_increment := vendors_auto_increment db + 1;
           progress_logs_auto_increment := progress_logs_auto_increment db;
           FOREIGN_KEY_CHECKS := FOREIGN_KEY_CHECKS db |},
        vendors_auto_increment db).

(** The order of [ORDER BY name]: that of the sort keys. *)
Definition name_leb (v w : Vendor.t) : bool :=
  String.leb (collate P (Vendor.name v)) (collate P (Vendor.name w)).

(** Insertion of a row into a list sorted by name. *)
Fixpoint insert_by_name (v : Vendor.t) (l : list Vendor.t) : list Vendor.t :=
  match l with
  | [] => [v]
  | w :: l' =>
      if name_leb v w
      then v :: l
      else w :: insert_by_name v l'
  end.

(** [SELECT * FROM vendors ORDER BY name] *)
Definition select_vendors_order_by_name (db : DB) : list Vendor.t :=
  fold_right insert_by_name [] (vendors db).

Definition has_vendor (db : DB) (vendorId : Z) : bool :=
  existsb (fun v => Vendor.id v =? vendorId) (vendors db).

(** [INSERT INTO progress_logs (vendor_id, progress, timestamp) VALUES (?, ?, ?)];
    [FOREIGN KEY (vendor_id) REFERENCES vendors(id)] is checked while
    [FOREIGN_KEY_CHECKS] is on. *)
Definition insert_progress_log (db : DB) (vendorId : Z) (progress : jsval)
  (timestamp : Z) : result DB :=
  await vendor_id' <- int_in_range vendorId ;;
  await progress' <- store_int progress ;;
  if FOREIGN_KEY_CHECKS db && negb (has_vendor db vendor_id')
  then sql_throw ER_NO_REFERENCED_ROW_2
  else
    ok {| users := users db;
          vendors := vendors db;
          progress_logs := progress_logs db ++
            [{| ProgressLog.id := progress_logs_auto_increment db;
                ProgressLog.vendor_id := vendor_id';
                ProgressLog.progress := progress';
                ProgressLog.timestamp := timestamp |}];
          users_auto_increment := users_auto_increment db;
          vendors_auto_increment := vendors_auto_increment db;
          progress_logs_auto_increment := progress_logs_auto_increment db + 1;
          FOREIGN_KEY_CHECKS := FOREIGN_KEY_CHECKS db |}.

Definition logs_of_vendor (db : DB) (vendorId : Z) : list ProgressLog.t :=
  filter (fun l => ProgressLog.vendor_id l =? vendorId) (progress_logs db).

Definition sum_Z (l : list Z) : Z := fold_right Z.add 0 l.

(** [SELECT SUM(progress) as totalProgress FROM progress_logs WHERE vendor_id = ?]:
    one row, whose column is [null] when no row matches and the decimal
    text of the sum otherwise. *)
Definition select_sum_progress (db : DB) (vendorId : Z) : jsval :=
  match logs_of_vendor db vendorId with
  | [] => JNull
  | rows => JStr (number_to_string (sum_Z (map ProgressLog.progress rows)))
  end.

(** [UPDATE vendors SET is_paid = TRUE WHERE id = ?] *)
Definition update_vendor_is_paid (db : DB) (vendorId : Z) : DB :=
  {| users := users db;
     vendors := map (fun v => if Vendor.id v =? vendorId
                              then Vendor.set_is_paid v true else v)
                    (vendors db);
     progress_logs := progress_logs db;
     users_auto_increment := users_auto_increment db;
     vendors_auto_increment := vendors_auto_increment db;
     progress_logs_auto_increment := progress_logs_auto_increment db;
     FOREIGN_KEY_CHECKS := FOREIGN_KEY_CHECKS db |}.

(** [SET FOREIGN_KEY_CHECKS = b] *)
Definition set_foreign_key_checks (db : DB) (b : bool) : result DB :=
  ok {| users := users db; vendors := vendors db;
        progress_logs := progress_logs db;
        users_auto_increment := users_auto_increment db;
        vendors_auto_increment := vendors_auto_increment db;
        progress_logs_auto_increment := progress_logs_auto_increment db;
        FOREIGN_KEY_CHECKS := b |}.

(** [TRUNCATE TABLE progress_logs] *)
Definition truncate_progress_logs (db : DB) : result DB :=
  ok {| users := users db; vendors := vendors db;
        progress_logs := [];
        users_auto_increment := users_auto_increment db;
        vendors_auto_increment := vendors_auto_increment db;
        progress_logs_auto_increment := 1;
        FOREIGN_KEY_CHECKS := FOREIGN_KEY_CHECKS db |}.

(** [TRUNCATE TABLE vendors]: refused while foreign keys are checked,
    since [progress_logs] references the table. *)
Definition truncate_vendors (db : DB) : result DB :=
  if FOREIGN_KEY_CHECKS db
  then sql_throw ER_TRUNCATE_ILLEGAL_FK
  else
    ok {| users := users db; vendors := [];
          progress_logs := progress_logs db;
          users_auto_increment := users_auto_increment db;
          vendors_auto_increment := 1;
          progress_logs_auto_increment := progress_logs_auto_increment db;
          FOREIGN_KEY_CHECKS := FOREIGN_KEY_CHECKS db |}.

(** [TRUNCATE TABLE users] *)
Definition truncate_users (db : DB) : result DB :=
  ok {| users := []; vendors := vendors db;
        progress_logs := progress_logs db;
        users_auto_increment := 1;
        vendors_auto_increment := vendors_auto_increment db;
        progress_logs_auto_increment := progress_logs_auto_increment db;
        FOREIGN_KEY_CHECKS := FOREIGN_KEY_CHECKS db |}.

(** A handler that issues several queries in a row: every query that
    succeeded has taken effect when a later one fails. *)
Fixpoint run_queries (queries : list (DB -> result DB)) (db : DB)
  : DB * option error :=
  match queries with
  | [] => (db, None)
  | q :: queries' =>
      match q db with
      | inl e => (db, Some e)
      | inr db' => run_queries queries' db'
      end
  end.

(** ** Route handlers *)

(** [app.post('/signup')]; [now] is the clock of the database, [salt] the
    salt bcrypt draws. *)
Definition post_signup (db : DB) (now : Z) (salt : string) (body : object)
  : DB * response :=
  let name := body "name" in
  let email := body "email" in
  let role := body "role" in
  let password := body "password" in
  if negb (truthy name) || negb (truthy email) || negb (truthy role)
     || negb (truthy password)
  then (db, res 400 (Message "All fields are required for signup."))
  else
    match (await passwordHash <- bcrypt_hash_js password salt ;;
           insert_user db now name email (JStr passwordHash) role) with
    | inr db' => (db', res 201 (Message "User created successfully!"))
    | inl err =>
        if is_ER_DUP_ENTRY err
        then (db, res 409 (Message "An account with this email already exists."))
        else (db, res 500 (Message "Failed to create user."))
    end.

Definition access_denied (role : string) : string :=
  String.append "Access denied. Please log in through the '"
    (String.append role "' portal.").

(** [app.post('/login')] *)
Definition post_login (db : DB) (body : object) : DB * response :=
  let email := body "email" in
  let password := body "password" in
  let role := body "role" in
  if negb (truthy email) || negb (truthy password) || negb (truthy role)
  then (db, res 400 (Message "Email, password, and role are required."))
  else
    match select_users_by_email db email with
    | [] => (db, res 401 (Message "Invalid email or password."))
    | user :: _ =>
        match bcrypt_compare_js password (User.password_hash user) with
        | inl _ => (db, res 500 (Message "An internal server error occurred."))
        | inr passwordMatch =>
            if negb passwordMatch
            then (db, res 401 (Message "Invalid email or password."))
            else if strict_neq_string (User.role user) role
            then (db, res 403 (Message (access_denied (User.role user))))
            else (db, res 200 (LoginUser "Login successful!" (User.id user)
                                 (User.name user) (User.email user)
                                 (User.role user)))
        end
    end.

(** [app.get('/vendors')] *)
Definition get_vendors (db : DB) : DB * response :=
  (db, res 200 (VendorRows (select_vendors_order_by_name db))).

(** [app.post('/add-vendor')]; [now] is the clock of the database. *)
Definition post_add_vendor (db : DB) (now : Z) (body : object) : DB * response :=
  let name := body "name" in
  let walletAddress := body "walletAddress" in
  let milestoneGoal := body "milestoneGoal" in
  let rewardAmount := body "rewardAmount" in
  if negb (truthy name) || negb (truthy walletAddress)
     || negb (truthy milestoneGoal) || negb (truthy rewardAmount)
  then (db, res 400 (Message "All vendor fields are required."))
  else
    match insert_vendor db now name walletAddress milestoneGoal rewardAmount with
    | inr (db', insertId) =>
        (db', res 201 (VendorAdded "Vendor added successfully!" insertId))
    | inl _ => (db, res 500 (Message "Failed to add vendor."))
    end.

(** [app.get('/vendors/:vendorId/progress')] *)
Definition get_vendor_progress (db : DB) (vendorId : Z) : DB * response :=
  let totalProgress := js_or (select_sum_progress db vendorId) (JNum 0) in
  (db, res 200 (TotalProgress totalProgress)).

(** The guard of [app.post('/vendors/:vendorId/progress')]:
    [!newProgress || isNaN(newProgress) || newProgress <= 0]. *)
Definition invalid_progress (newProgress : jsval) : bool :=
  negb (truthy newProgress) || isNaN newProgress || le_zero newProgress.

(** [app.post('/vendors/:vendorId/progress')]; [now] is [new Date()]. *)
Definition post_vendor_progress (db : DB) (vendorId : Z) (now : Z) (body : object)
  : DB * response :=
  let newProgress := body "newProgress" in
  if invalid_progress newProgress
  then (db, res 400 (Message "Invalid progress value."))
  else
    let timestamp := now in
    match insert_progress_log db vendorId newProgress timestamp with
    | inr db' => (db', res 200 (Message "Progress updated successfully!"))
    | inl _ => (db, res 500 (Message "Failed to update progress."))
    end.

(** [app.post('/vendors/:vendorId/payout')] *)
Definition post_vendor_payout (db : DB) (vendorId : Z) : DB * response :=
  (update_vendor_is_paid db vendorId,
   res 200 (Message "Payout processed successfully!")).

(** [app.post('/reset')] *)
Definition post_reset (db : DB) : DB * response :=
  match run_queries
          [ (fun d => set_foreign_key_checks d false);
            truncate_progress_logs;
            truncate_vendors;
            truncate_users;
            (fun d => set_foreign_key_checks d true) ] db with
  | (db', None) => (db', res 200 (Message "Simulation reset successfully."))
  | (db', Some _) => (db', res 500 (Message "Failed to reset."))
  end.

(** ** The server as a state machine *)

Inductive request : Type :=
| POST_signup (now : Z) (salt : string) (body : object)
| POST_login (body : object)
| GET_vendors
| POST_add_vendor (now : Z) (body : object)
| GET_vendor_progress (vendorId : Z)
| POST_vendor_progress (vendorId : Z) (now : Z) (body : object)
| POST_vendor_payout (vendorId : Z)
| POST_reset.

Definition handle (db : DB) (req : request) : DB * response :=
  match req with
  | POST_signup now salt body => post_signup db now salt body
  | POST_login body => post_login db body
  | GET_vendors => get_vendors db
  | POST_add_vendor now body => post_add_vendor db now body
  | GET_vendor_progress vendorId => get_vendor_progress db vendorId
  | POST_vendor_progress vendorId now body =>
      post_vendor_progress db vendorId now body
  | POST_vendor_payout vendorId => post_vendor_payout db vendorId
  | POST_reset => post_reset db
  end.

(** The state after a sequence of requests. *)
Definition serve (db : DB) (reqs : list request) : DB :=
  fold_left (fun d r => fst (handle d r)) reqs db.

(** Recording a list of progress values for one vendor, each with the time
    of its request: the final state and the responses in order. *)
Fixpoint record_all (db : DB) (vendorId : Z) (entries : list (Z * Qc))
  : DB * list response :=
  match entries with
  | [] => (db, [])
  | (now, p) :: entries' =>
      let (db1, r) :=
        post_vendor_progress db vendorId now (obj [("newProgress", JNum p)]) in
      let (db2, rs) := record_all db1 vendorId entries' in
      (db2, r :: rs)
  end.

(** ** Requests that pass a handler's first guard *)

(** The four fields of a signup request are present. *)
Definition signup_fields_present (body : object) : Prop :=
  truthy (body "name") = true /\ truthy (body "email") = true
  /\ truthy (body "role") = true /\ truthy (body "password") = true.

(** The three fields of a login request are present. *)
Definition login_fields_present (body : object) : Prop :=
  truthy (body "email") = true /\ truthy (body "password") = true
  /\ truthy (body "role") = true.

(** The four fields of an add-vendor request are truthy. *)
Definition vendor_fields_present (body : object) : Prop :=
  truthy (body "name") = true /\ truthy (body "walletAddress") = true
  /\ truthy (body "milestoneGoal") = true
  /\ truthy (body "rewardAmount") = true.

(** ** Recording a number *)

(** The state after a progress entry of value [p] has been appended. *)
Definition append_progress_log (db : DB) (vendorId p timestamp : Z) : DB :=
  {| users := users db;
     vendors := vendors db;
     progress_logs := progress_logs db ++
       [{| ProgressLog.id := progress_logs_auto_increment db;
           ProgressLog.vendor_id := vendorId;
           ProgressLog.progress := p;
           ProgressLog.timestamp := timestamp |}];
     users_auto_increment := users_auto_increment db;
     vendors_auto_increment := vendors_auto_increment db;
     progress_logs_auto_increment := progress_logs_auto_increment db + 1;
     FOREIGN_KEY_CHECKS := FOREIGN_KEY_CHECKS db |}.

(** What the [INT] column makes of a number. *)
Definition stored_progress (p : Qc) : Z := round_half_away (Qnum p) (Qden p).

(** The requests [{ newProgress: p }] that are answered 200: the guard
    lets [p] through and the insert is accepted. *)
Definition recordable (db : DB) (vendorId : Z) (p : Qc) : bool :=
  (0 <? Qnum p) && in_int_range vendorId && in_int_range (stored_progress p)
  && (negb (FOREIGN_KEY_CHECKS db) || has_vendor db vendorId).

(** ** Sample data *)

Definition acme_body : object :=
  obj [("name", JStr "Acme H2"); ("walletAddress", JStr "0xABC");
       ("milestoneGoal", JNum 1000); ("rewardAmount", JNum 50000)].

(** The database after [setupDatabase] and one add-vendor request. *)
Definition acme_db : DB :=
  {| users := [];
     vendors := [{| Vendor.id := 1; Vendor.name := "Acme H2";
                    Vendor.wallet_address := "0xABC";
                    Vendor.milestone_goal := 1000;
                    Vendor.reward_amount := 5000000;
                    Vendor.is_paid := false; Vendor.created_at := 0 |}];
     progress_logs := [];
     users_auto_increment := 1; vendors_auto_increment := 2;
     progress_logs_auto_increment := 1; FOREIGN_KEY_CHECKS := true |}.

(** A user, alice, a producer, with the password [secret] under the
    reference platform, and the database after her signup on top of
    [acme_db]. *)
Definition alice : User.t :=
  {| User.id := 1; User.name := "Alice"; User.email := "alice@example.com";
     User.password_hash := "$2b$10$secret"; User.role := "producer";
     User.created_at := 0 |}.

Definition alice_db : DB :=
  {| users := [alice];
     vendors := vendors acme_db;
     progress_logs := [];
     users_auto_increment := 2; vendors_auto_increment := 2;
     progress_logs_auto_increment := 1; FOREIGN_KEY_CHECKS := true |}.

(** A second user, bob, an auditor. *)
Definition bob : User.t :=
  {| User.id := 2; User.name := "Bob"; User.email := "bob@example.com";
     User.password_hash := "$2b$10$pw"; User.role := "auditor";
     User.created_at := 7 |}.

(** The database after a second vendor has been added to [alice_db], bob
    has signed up, and 40 has been recorded for the second vendor. *)
Definition beta_db : DB :=
  {| users := [alice; bob];
     vendors := vendors acme_db ++
       [{| Vendor.id := 2; Vendor.name := "beta gas";
           Vendor.wallet_address := "0xDEF";
           Vendor.milestone_goal := 500;
           Vendor.reward_amount := 10000;
           Vendor.is_paid := false; Vendor.created_at := 9 |}];
     progress_logs :=
       [{| ProgressLog.id := 1; ProgressLog.vendor_id := 2;
           ProgressLog.progress := 40; ProgressLog.timestamp := 11 |}];
     users_auto_increment := 3; vendors_auto_increment := 3;
     progress_logs_auto_increment := 2; FOREIGN_KEY_CHECKS := true |}.

Definition login_body (email password role : string) : object :=
  obj [("email", JStr email); ("password", JStr password); ("role", JStr role)].

Definition signup_body (name email role password : string) : object :=
  obj [("name", JStr name); ("email", JStr email); ("role", JStr role);
       ("password", JStr password)].

(** ** Integrity of the database

    What the constraints of the three tables say of a state: unique
    emails, unique wallet addresses, vendor ids that are unique and below
    the counter, roles that are values of the enumeration, and progress
    entries that belong to a vendor; together with checked foreign
    keys. *)
Definition consistent (db : DB) : Prop :=
  FOREIGN_KEY_CHECKS db = true
  /\ NoDup (map User.email (users db))
  /\ Forall (fun u => In (User.role u) (enum_values role_enum)) (users db)
  /\ NoDup (map Vendor.wallet_address (vendors db))
  /\ NoDup (map Vendor.id (vendors db))
  /\ Forall (fun v => Vendor.id v < vendors_auto_increment db) (vendors db)
  /\ Forall (fun l => has_vendor db (ProgressLog.vendor_id l) = true)
       (progress_logs db).

(** ** Notions for the properties of the routes *)

(** The order of [ORDER BY name], as a relation. *)
Definition by_name (v w : Vendor.t) : Prop := name_leb v w = true.


Definition is_reset (req : request) : bool :=
  match req with
  | POST_reset => true
  | _ => false
  end.

(** The status codes each route sends, one per [res.status] of its handler. *)
Definition statuses (req : request) : list Z :=
  match req with
  | POST_signup _ _ _ => [400; 201; 409; 500]
  | POST_login _ => [400; 401; 403; 200; 500]
  | GET_vendors => [200; 500]
  | POST_add_vendor _ _ => [400; 201; 500]
  | GET_vendor_progress _ => [200; 500]
  | POST_vendor_progress _ _ _ => [400; 200; 500]
  | POST_vendor_payout _ => [200; 500]
  | POST_reset => [200; 500]
  end.

(** A vendor row without its one mutable column. *)
Definition unpaid (v : Vendor.t) : Vendor.t := Vendor.set_is_paid v false.

(** The sum of the progress entries of a vendor. *)
Definition total_progress (db : DB) (vendorId : Z) : Z :=
  sum_Z (map ProgressLog.progress (logs_of_vendor db vendorId)).

(** What the progress route reports for the stored entries of a vendor:
    the number 0 when there are none, the decimal text of their sum
    otherwise. *)
Definition total_text (entries : list Z) : jsval :=
  match entries with
  | [] => JNum 0
  | _ => JStr (number_to_string (sum_Z entries))
  end.


(** The [UNIQUE] indexes: no two users with emails of one key, no two
    vendors with wallet addresses of one key. *)
Definition unique_keys (db : DB) : Prop :=
  NoDup (map (fun u => collate P (User.email u)) (users db))
  /\ NoDup (map (fun v => collate P (Vendor.wallet_address v)) (vendors db)).

End Server.

(** * Properties *)

Section Properties.

Variable P : Platform.

(** ** Total progress *)

(** *** Numbers *)

Lemma number_of_Z_this (n : Z) : this (number_of_Z n) = inject_Z n.
Proof.
  unfold number_of_Z, Q2Qc; cbn [this]. apply Qred_identity.
  cbn. apply Z.gcd_1_r.
Qed.

Lemma Qnum_number_of_Z (n : Z) : Qnum (number_of_Z n) = n.
Proof. now rewrite number_of_Z_this. Qed.

Lemma Qden_number_of_Z (n : Z) : Qden (number_of_Z n) = 1%positive.
Proof. now rewrite number_of_Z_this. Qed.

Lemma round_half_away_whole (n : Z) : round_half_away n 1 = n.
Proof.
  unfold round_half_away. destruct (Z.leb_spec 0 n) as [H|H].
  - change (2 * 1) with 2. symmetry. apply (Z.div_unique _ 2 n 1); lia.
  - change (2 * 1) with 2.
    rewrite <- (Z.div_unique (2 * - n + 1) 2 (- n) 1); lia.
Qed.

(** A whole number is stored as it is. *)
Lemma stored_progress_whole (n : Z) : stored_progress (number_of_Z n) = n.
Proof.
  unfold stored_progress.
  rewrite Qnum_number_of_Z, Qden_number_of_Z. apply round_half_away_whole.
Qed.


Lemma number_to_string_not_empty (n : Z) : number_to_string n <> "".
Proof.
  unfold number_to_string, NilZero.string_of_int.
  destruct (Z.to_int n) as [d|d]; [|discriminate].
  unfold NilZero.string_of_uint. destruct d; discriminate.
Qed.

Lemma truthy_number_to_string (n : Z) : truthy (JStr (number_to_string n)) = true.
Proof.
  cbn. destruct (String.eqb_spec (number_to_string n) "") as [E|E];
    [now apply number_to_string_not_empty in E | reflexivity].
Qed.

(** *** The total *)

Lemma get_vendor_progress_total (db : DB) (vendorId : Z) :
  get_vendor_progress db vendorId
  = (db, res 200 (TotalProgress
       (total_text (map ProgressLog.progress (logs_of_vendor db vendorId))))).
Proof.
  unfold get_vendor_progress, select_sum_progress, total_text.
  destruct (logs_of_vendor db vendorId) as [|l ls]; [reflexivity|].
  unfold js_or. now rewrite truthy_number_to_string.
Qed.

Lemma total_text_sum (x : Z) (xs : list Z) :
  total_text (x :: xs) = JStr (number_to_string (sum_Z (x :: xs))).
Proof. reflexivity. Qed.

Lemma logs_of_vendor_none (db : DB) (vendorId : Z) :
  (forall l, In l (progress_logs db) -> ProgressLog.vendor_id l <> vendorId) ->
  logs_of_vendor db vendorId = [].
Proof.
  intros Hnone. unfold logs_of_vendor.
  induction (progress_logs db) as [|l ls IH]; cbn; [reflexivity|].
  destruct (Z.eqb_spec (ProgressLog.vendor_id l) vendorId) as [E|E].
  - destruct (Hnone l); [now left | exact E].
  - apply IH. intros l' Hl'. apply Hnone. now right.
Qed.

(** C6: for a vendor id that none of the recorded progress entries
    carries, whatever is recorded for other vendors, the progress route
    answers 200 with [totalProgress] the number 0, and leaves the
    database as it was. *)
Theorem total_progress_zero_without_entries (db : DB) (vendorId : Z) :
  (forall l, In l (progress_logs db) -> ProgressLog.vendor_id l <> vendorId) ->
  get_vendor_progress db vendorId = (db, res 200 (TotalProgress (JNum 0))).
Proof.
  intros Hnone. rewrite get_vendor_progress_total.
  now rewrite (logs_of_vendor_none db vendorId Hnone).
Qed.

(** ** Payout *)

Lemma set_is_paid_twice (v : Vendor.t) (b : bool) :
  Vendor.set_is_paid (Vendor.set_is_paid v b) b = Vendor.set_is_paid v b.
Proof. reflexivity. Qed.

Lemma set_is_paid_same (v : Vendor.t) :
  Vendor.set_is_paid v (Vendor.is_paid v) = v.
Proof. destruct v; reflexivity. Qed.

Lemma update_vendor_is_paid_twice (db : DB) (vendorId : Z) :
  update_vendor_is_paid (update_vendor_is_paid db vendorId) vendorId
  = update_vendor_is_paid db vendorId.
Proof.
  unfold update_vendor_is_paid; cbn. f_equal.
  rewrite map_map. apply map_ext. intros v.
  destruct (Vendor.id v =? vendorId) eqn:E; cbn; rewrite E; reflexivity.
Qed.

(** A payout changes nothing when every vendor of that id is paid
    already; in particular when there is no such vendor. *)
Lemma update_vendor_is_paid_noop (db : DB) (vendorId : Z) :
  (forall v, In v (vendors db) -> Vendor.id v = vendorId ->
             Vendor.is_paid v = true) ->
  update_vendor_is_paid db vendorId = db.
Proof.
  intros Hpaid. destruct db as [us vs ls cu cv cl fk]; unfold update_vendor_is_paid; cbn in *.
  f_equal. rewrite <- (map_id vs) at 2. apply map_ext_in. intros v Hv.
  destruct (Z.eqb_spec (Vendor.id v) vendorId) as [E|E]; [|reflexivity].
  rewrite <- (Hpaid v Hv E). apply set_is_paid_same.
Qed.

Lemma has_vendor_false (db : DB) (vendorId : Z) :
  has_vendor db vendorId = false <->
  (forall v, In v (vendors db) -> Vendor.id v <> vendorId).
Proof.
  unfold has_vendor. split.
  - intros H v Hv E.
    assert (existsb (fun v => Vendor.id v =? vendorId) (vendors db) = true) as Ht.
    { apply existsb_exists. exists v. split; [exact Hv|]. now apply Z.eqb_eq. }
    congruence.
  - intros H. destruct (existsb _ _) eqn:E; [|reflexivity].
    apply existsb_exists in E. destruct E as [v [Hv E]].
    apply Z.eqb_eq in E. now destruct (H v Hv).
Qed.

(** C7: the payout route answers 200 for every vendor id; afterwards every
    vendor of that id has [is_paid] set, its other columns and all other
    vendors are as before; a second payout answers the same and leaves
    the state of the first; and on a vendor id that is paid already or
    that no vendor has, the state does not change at all. *)
Theorem payout_sets_is_paid_and_is_idempotent (db : DB) (vendorId : Z) :
  let db1 := fst (post_vendor_payout db vendorId) in
  let r1 := snd (post_vendor_payout db vendorId) in
  let db2 := fst (post_vendor_payout db1 vendorId) in
  let r2 := snd (post_vendor_payout db1 vendorId) in
  r1 = res 200 (Message "Payout processed successfully!")
  /\ (forall v, In v (vendors db1) -> Vendor.id v = vendorId ->
                Vendor.is_paid v = true)
  /\ (forall v, In v (vendors db) -> Vendor.id v = vendorId ->
                In (Vendor.set_is_paid v true) (vendors db1))
  /\ (forall v, In v (vendors db) -> Vendor.id v <> vendorId ->
                In v (vendors db1))
  /\ List.length (vendors db1) = List.length (vendors db)
  /\ r2 = r1
  /\ db2 = db1
  /\ ((forall v, In v (vendors db) -> Vendor.id v = vendorId ->
                 Vendor.is_paid v = true) -> db1 = db)
  /\ (has_vendor db vendorId = false -> db1 = db).
Proof.
  cbn. repeat split.
  - intros v Hv E. apply in_map_iff in Hv. destruct Hv as [w [Hw _]].
    destruct (Z.eqb_spec (Vendor.id w) vendorId) as [Ew|Ew]; subst v;
      [reflexivity | contradiction].
  - intros v Hv E. apply in_map_iff. exists v. split; [|exact Hv].
    apply Z.eqb_eq in E. now rewrite E.
  - intros v Hv E. apply in_map_iff. exists v. split; [|exact Hv].
    apply Z.eqb_neq in E. now rewrite E.
  - apply length_map.
  - apply update_vendor_is_paid_twice.
  - apply update_vendor_is_paid_noop.
  - intros Hno. apply update_vendor_is_paid_noop. intros v Hv E.
    rewrite has_vendor_false in Hno. now destruct (Hno v Hv).
Qed.

(** ** Reset *)

(** While foreign keys are checked the vendors table cannot be truncated:
    this is why the reset route suspends the checks first. *)
Lemma truncate_vendors_refused (db : DB) :
  FOREIGN_KEY_CHECKS db = true ->
  truncate_vendors db = sql_throw ER_TRUNCATE_ILLEGAL_FK.
Proof. intros H. unfold truncate_vendors. now rewrite H. Qed.

Lemma post_reset_empty (db : DB) :
  post_reset db = (empty_db, res 200 (Message "Simulation reset successfully.")).
Proof. reflexivity. Qed.

Lemma login_guard_passes (body : object) :
  login_fields_present body ->
  negb (truthy (body "email")) || negb (truthy (body "password"))
  || negb (truthy (body "role")) = false.
Proof. intros (-> & -> & ->). reflexivity. Qed.

Lemma login_without_user (db : DB) (body : object) :
  login_fields_present body ->
  select_users_by_email P db (body "email") = [] ->
  post_login P db body = (db, res 401 (Message "Invalid email or password.")).
Proof.
  intros Hp Hnone. unfold post_login.
  rewrite (login_guard_passes body Hp), Hnone. reflexivity.
Qed.

Lemma login_wrong_password (db : DB) (body : object) (user : User.t)
  (rest : list User.t) :
  login_fields_present body ->
  select_users_by_email P db (body "email") = user :: rest ->
  bcrypt_compare_js P (body "password") (User.password_hash user) = ok false ->
  post_login P db body = (db, res 401 (Message "Invalid email or password.")).
Proof.
  intros Hp Hrows Hcmp. unfold post_login.
  rewrite (login_guard_passes body Hp), Hrows, Hcmp. reflexivity.
Qed.

(** C8: the reset route answers 200 and leaves the three tables empty
    with foreign keys checked again; after it the vendor list is the
    empty array, every vendor's total progress is 0, and every login with
    its three fields present is answered 401. *)
Theorem reset_clears_all_tables (db : DB) :
  let db' := fst (post_reset db) in
  snd (post_reset db) = res 200 (Message "Simulation reset successfully.")
  /\ progress_logs db' = [] /\ vendors db' = [] /\ users db' = []
  /\ FOREIGN_KEY_CHECKS db' = true
  /\ get_vendors P db' = (db', res 200 (VendorRows []))
  /\ (forall vendorId,
        get_vendor_progress db' vendorId
        = (db', res 200 (TotalProgress (JNum 0))))
  /\ (forall body, login_fields_present body ->
        post_login P db' body
        = (db', res 401 (Message "Invalid email or password."))).
Proof.
  rewrite post_reset_empty. cbn [fst snd].
  repeat split.
  intros body Hp. now apply login_without_user.
Qed.

(** ** Login *)

(** With the three fields present, a login whose email matches no user
    and a login whose email matches a user whose hash bcrypt finds not
    to match the password, a string, get the same response, 401 with the
    body [Invalid email or password.]. *)
Lemma login_failures_same_for_strings (db_unknown db_known : DB)
  (unknown known : object) (user : User.t) (rest : list User.t) :
  login_fields_present unknown ->
  login_fields_present known ->
  select_users_by_email P db_unknown (unknown "email") = [] ->
  select_users_by_email P db_known (known "email") = user :: rest ->
  bcrypt_compare_js P (known "password") (User.password_hash user) = ok false ->
  snd (post_login P db_unknown unknown) = snd (post_login P db_known known)
  /\ post_login P db_unknown unknown
     = (db_unknown, res 401 (Message "Invalid email or password."))
  /\ post_login P db_known known
     = (db_known, res 401 (Message "Invalid email or password.")).
Proof.
  intros Hu Hk Hnone Hrows Hcmp.
  rewrite (login_without_user db_unknown unknown Hu Hnone).
  rewrite (login_wrong_password db_known known user rest Hk Hrows Hcmp).
  repeat split.
Qed.

(** C3: the two failures of a login are not always answered alike.
    With the three fields present and a password that is not a string,
    which bcrypt refuses with an error, a login whose email matches a
    user is answered 500 with [An internal server error occurred.],
    while a login whose email matches no user is answered 401 with
    [Invalid email or password.]: the response tells whether the email
    is registered. *)
Theorem login_failure_reveals_registered_email (db : DB)
  (unknown known : object) (user : User.t) (rest : list User.t) :
  login_fields_present unknown ->
  login_fields_present known ->
  select_users_by_email P db (unknown "email") = [] ->
  select_users_by_email P db (known "email") = user :: rest ->
  (forall s, known "password" <> JStr s) ->
  post_login P db unknown
  = (db, res 401 (Message "Invalid email or password."))
  /\ post_login P db known
     = (db, res 500 (Message "An internal server error occurred."))
  /\ snd (post_login P db unknown) <> snd (post_login P db known).
Proof.
  intros Hu Hk Hnone Hrows Hnot.
  assert (post_login P db known
          = (db, res 500 (Message "An internal server error occurred."))) as E.
  { unfold post_login. rewrite (login_guard_passes known Hk), Hrows.
    destruct (known "password") as [| |b|n|s]; try reflexivity.
    now destruct (Hnot s). }
  rewrite E, (login_without_user db unknown Hu Hnone).
  repeat split. cbn. discriminate.
Qed.



(** ** Signup *)

Lemma signup_guard_passes (body : object) :
  signup_fields_present body ->
  negb (truthy (body "name")) || negb (truthy (body "email"))
  || negb (truthy (body "role")) || negb (truthy (body "password")) = false.
Proof. intros (-> & -> & -> & ->). reflexivity. Qed.

Lemma mem_string_In (s : string) (l : list string) :
  mem_string s l = true <-> In s l.
Proof.
  unfold mem_string. rewrite existsb_exists. split.
  - intros [x [Hx E]]. apply String.eqb_eq in E. now subst.
  - intros H. exists s. split; [exact H | apply String.eqb_refl].
Qed.

(** *** Unique keys *)

Lemma key_taken_In (s : string) (stored : list string) :
  In s stored -> key_taken P s stored = true.
Proof.
  intros H. unfold key_taken. apply mem_string_In. now apply in_map.
Qed.

Lemma key_taken_false (s : string) (stored : list string) :
  key_taken P s stored = false ->
  ~ In (collate P s) (map (collate P) stored) /\ ~ In s stored.
Proof.
  intros E. assert (~ In (collate P s) (map (collate P) stored)) as Hkey.
  { intros H. apply mem_string_In in H. unfold key_taken in E. congruence. }
  split; [exact Hkey|]. intros H. apply Hkey. now apply in_map.
Qed.

(** *** Columns *)



Lemma enum_member_In (members : list string) (i : Z) (m : string) :
  enum_member members i = inr m -> In m members.
Proof.
  unfold enum_member. destruct (1 <=? i); [|discriminate].
  destruct (nth_error members (Z.to_nat (i - 1))) as [m'|] eqn:E;
    [|discriminate].
  intros H; inversion H; subst. eapply nth_error_In; eauto.
Qed.



Lemma enum_by_name_In (members : list string) (s m : string) :
  enum_by_name P members s = Some m ->
  In m members /\ collate P m = collate P s.
Proof.
  unfold enum_by_name. intros H. apply find_some in H.
  destruct H as [Hin E]. apply String.eqb_eq in E. auto.
Qed.


(** What is stored in an [ENUM] column is one of its values. *)
Lemma store_enum_member (members : list string) (v : jsval) (s : string) :
  store_enum P members v = inr s -> In s (enum_values members).
Proof.
  unfold enum_values.
  destruct v as [| |b|n|s']; cbn [store_enum]; try discriminate;
    try (intros H; right; eapply enum_member_In; exact H).
  destruct (enum_by_name P members s') as [m|] eqn:E.
  - intros H; inversion H; subst. right. now apply enum_by_name_In in E.
  - destruct (sql_enum_index P s') as [i|]; [|discriminate].
    destruct (i =? 0).
    + intros H; inversion H. now left.
    + intros H. right. eapply enum_member_In; exact H.
Qed.

(** A number or boolean is stored as a member. *)
Lemma store_enum_number_member (members : list string) (v : jsval) (s : string) :
  (forall t, v <> JStr t) ->
  store_enum P members v = inr s -> In s members.
Proof.
  intros Hv. destruct v as [| |b|n|s']; cbn [store_enum]; try discriminate;
    try apply enum_member_In.
  now destruct (Hv s').
Qed.



Lemma NoDup_map_injective {A B} (f : A -> B) (l : list A) (x y : A) :
  NoDup (map f l) -> In x l -> In y l -> f x = f y -> x = y.
Proof.
  induction l as [|a l IH]; cbn; intros Hnd Hx Hy E; [contradiction|].
  apply NoDup_cons_iff in Hnd. destruct Hnd as [Hna Hnd].
  destruct Hx as [<-|Hx], Hy as [<-|Hy]; auto.
  - destruct Hna. rewrite E. now apply in_map.
  - destruct Hna. rewrite <- E. now apply in_map.
Qed.

(** A name of the enumeration, given exactly, stands for itself when the
    members have different sort keys. *)
Lemma store_enum_exact (role : string) :
  NoDup (map (collate P) role_enum) -> In role role_enum ->
  store_enum P role_enum (JStr role) = ok role.
Proof.
  intros Hnd Hin. cbn [store_enum].
  destruct (enum_by_name P role_enum role) as [m|] eqn:E.
  - apply enum_by_name_In in E. destruct E as [Hm Hkey]. f_equal.
    now apply (NoDup_map_injective (collate P) role_enum).
  - exfalso. unfold enum_by_name in E.
    pose proof (find_none _ _ E role Hin) as F. cbn in F.
    rewrite String.eqb_refl in F. discriminate.
Qed.

(** A member name, given exactly, is taken for a member. *)
Lemma store_enum_name_accepted (members : list string) (role : string) :
  In role members -> exists m, store_enum P members (JStr role) = ok m.
Proof.
  intros Hin. cbn [store_enum].
  destruct (enum_by_name P members role) as [m|] eqn:E; [eauto|].
  exfalso. unfold enum_by_name in E.
  pose proof (find_none _ _ E role Hin) as F. cbn in F.
  rewrite String.eqb_refl in F. discriminate.
Qed.

Lemma fits_ok (len : nat) (s s' : string) :
  fits len s = inr s' -> s' = s /\ (String.length s <= len)%nat.
Proof.
  unfold fits. destruct (Nat.leb_spec (String.length s) len); intros E;
    inversion E; subst; auto.
Qed.

Lemma fits_length (len : nat) (s : string) :
  (String.length s <= len)%nat -> fits len s = ok s.
Proof.
  intros H. unfold fits. apply Nat.leb_le in H. now rewrite H.
Qed.

(** *** Inserts *)

(** What a successful insert of a user has done. *)
Lemma insert_user_ok (db db' : DB) (now : Z)
  (name email password_hash role : jsval) :
  insert_user P db now name email password_hash role = inr db' ->
  exists name' email' hash' role',
    store_varchar P 255 name = ok name'
    /\ store_varchar P 255 email = ok email'
    /\ store_varchar P 255 password_hash = ok hash'
    /\ store_enum P role_enum role = ok role'
    /\ key_taken P email' (map User.email (users db)) = false
    /\ db' = {| users := users db ++
                  [{| User.id := users_auto_increment db; User.name := name';
                      User.email := email'; User.password_hash := hash';
                      User.role := role'; User.created_at := now |}];
                vendors := vendors db;
                progress_logs := progress_logs db;
                users_auto_increment := users_auto_increment db + 1;
                vendors_auto_increment := vendors_auto_increment db;
                progress_logs_auto_increment := progress_logs_auto_increment db;
                FOREIGN_KEY_CHECKS := FOREIGN_KEY_CHECKS db |}.
Proof.
  unfold insert_user.
  destruct (store_varchar P 255 name) as [|name']; cbn [bind]; [discriminate|].
  destruct (store_varchar P 255 email) as [|email']; cbn [bind]; [discriminate|].
  destruct (store_varchar P 255 password_hash) as [|hash']; cbn [bind];
    [discriminate|].
  destruct (store_enum P role_enum role) as [|role']; cbn [bind]; [discriminate|].
  destruct (key_taken _ _ _) eqn:Em; [discriminate|].
  intros E; inversion E; subst.
  exists name', email', hash', role'. repeat split; try reflexivity.
  exact Em.
Qed.

(** What a successful insert of a vendor has done. *)
Lemma insert_vendor_ok (db db' : DB) (now insertId : Z)
  (name wallet_address milestone_goal reward_amount : jsval) :
  insert_vendor P db now name wallet_address milestone_goal reward_amount
  = inr (db', insertId) ->
  exists name' wallet' goal' reward',
    store_varchar P 255 name = ok name'
    /\ store_varchar P 42 wallet_address = ok wallet'
    /\ store_int P milestone_goal = ok goal'
    /\ store_decimal_10_2 P reward_amount = ok reward'
    /\ key_taken P wallet' (map Vendor.wallet_address (vendors db)) = false
    /\ insertId = vendors_auto_increment db
    /\ db' = {| users := users db;
                vendors := vendors db ++
                  [{| Vendor.id := vendors_auto_increment db;
                      Vendor.name := name';
                      Vendor.wallet_address := wallet';
                      Vendor.milestone_goal := goal';
                      Vendor.reward_amount := reward';
                      Vendor.is_paid := false; Vendor.created_at := now |}];
                progress_logs := progress_logs db;
                users_auto_increment := users_auto_increment db;
                vendors_auto_increment := vendors_auto_increment db + 1;
                progress_logs_auto_increment := progress_logs_auto_increment db;
                FOREIGN_KEY_CHECKS := FOREIGN_KEY_CHECKS db |}.
Proof.
  unfold insert_vendor.
  destruct (store_varchar P 255 name) as [|name']; cbn [bind]; [discriminate|].
  destruct (store_varchar P 42 wallet_address) as [|wallet']; cbn [bind];
    [discriminate|].
  destruct (store_int P milestone_goal) as [|goal']; cbn [bind]; [discriminate|].
  destruct (store_decimal_10_2 P reward_amount) as [|reward']; cbn [bind];
    [discriminate|].
  destruct (key_taken _ _ _) eqn:Em; [discriminate|].
  intros E; inversion E; subst.
  exists name', wallet', goal', reward'. repeat split; try reflexivity.
  exact Em.
Qed.

(** *** The role *)



(** ** Foreign keys stay checked *)

Lemma insert_user_foreign_key_checks (db db' : DB) (now : Z)
  (name email password_hash role : jsval) :
  insert_user P db now name email password_hash role = inr db' ->
  FOREIGN_KEY_CHECKS db' = FOREIGN_KEY_CHECKS db
  /\ vendors db' = vendors db /\ progress_logs db' = progress_logs db.
Proof.
  intros E. apply insert_user_ok in E.
  destruct E as (n & e & h & r & _ & _ & _ & _ & _ & ->). cbn. auto.
Qed.

Lemma insert_vendor_foreign_key_checks (db db' : DB) (now insertId : Z)
  (name wallet_address milestone_goal reward_amount : jsval) :
  insert_vendor P db now name wallet_address milestone_goal reward_amount
  = inr (db', insertId) ->
  FOREIGN_KEY_CHECKS db' = FOREIGN_KEY_CHECKS db
  /\ users db' = users db /\ progress_logs db' = progress_logs db.
Proof.
  intros E. apply insert_vendor_ok in E.
  destruct E as (n & w & g & r & _ & _ & _ & _ & _ & _ & ->). cbn. auto.
Qed.

(** What a successful insert of a progress entry has done. *)
Lemma insert_progress_log_ok (db db' : DB) (vendorId timestamp : Z)
  (progress : jsval) :
  insert_progress_log P db vendorId progress timestamp = inr db' ->
  exists p,
    store_int P progress = ok p
    /\ in_int_range vendorId = true
    /\ (FOREIGN_KEY_CHECKS db = true -> has_vendor db vendorId = true)
    /\ db' = {| users := users db;
                vendors := vendors db;
                progress_logs := progress_logs db ++
                  [{| ProgressLog.id := progress_logs_auto_increment db;
                      ProgressLog.vendor_id := vendorId;
                      ProgressLog.progress := p;
                      ProgressLog.timestamp := timestamp |}];
                users_auto_increment := users_auto_increment db;
                vendors_auto_increment := vendors_auto_increment db;
                progress_logs_auto_increment :=
                  progress_logs_auto_increment db + 1;
                FOREIGN_KEY_CHECKS := FOREIGN_KEY_CHECKS db |}.
Proof.
  unfold insert_progress_log, int_in_range, ok, sql_throw.
  destruct (in_int_range vendorId) eqn:Ev; cbn [bind]; [|discriminate].
  destruct (store_int P progress) as [e|p]; cbn [bind]; [discriminate|].
  destruct (FOREIGN_KEY_CHECKS db) eqn:Efk, (has_vendor db vendorId) eqn:Eh;
    cbn; try discriminate; intros E; inversion E; subst;
    exists p; repeat split; auto; discriminate.
Qed.

Lemma handle_keeps_foreign_key_checks (db : DB) (req : request) :
  FOREIGN_KEY_CHECKS db = true ->
  FOREIGN_KEY_CHECKS (fst (handle P db req)) = true.
Proof.
  intros Hfk. destruct req as [now salt body|body| |now body|v|v now body|v|];
    cbn [handle].
  - unfold post_signup. destruct (_ || _); [exact Hfk|].
    destruct (bind _ _) as [e|db'] eqn:E.
    + destruct (is_ER_DUP_ENTRY e); exact Hfk.
    + destruct (bcrypt_hash_js P (body "password") salt); cbn [bind] in E;
        [discriminate|].
      apply insert_user_foreign_key_checks in E. cbn. now rewrite (proj1 E).
  - unfold post_login. destruct (_ || _); [exact Hfk|].
    destruct (select_users_by_email _ _ _); [exact Hfk|].
    destruct (bcrypt_compare_js _ _ _) as [e|m]; [exact Hfk|].
    destruct (negb m); [exact Hfk|].
    destruct (strict_neq_string _ _); exact Hfk.
  - exact Hfk.
  - unfold post_add_vendor. destruct (_ || _); [exact Hfk|].
    destruct (insert_vendor _ _ _ _ _ _ _) as [e|[db' i]] eqn:E; [exact Hfk|].
    apply insert_vendor_foreign_key_checks in E. cbn. now rewrite (proj1 E).
  - exact Hfk.
  - unfold post_vendor_progress. destruct (invalid_progress _ _); [exact Hfk|].
    destruct (insert_progress_log _ _ _ _ _) as [e|db'] eqn:E; [exact Hfk|].
    apply insert_progress_log_ok in E. destruct E as (p & _ & _ & _ & ->).
    exact Hfk.
  - exact Hfk.
  - reflexivity.
Qed.

Lemma serve_keeps_foreign_key_checks (reqs : list request) (db : DB) :
  FOREIGN_KEY_CHECKS db = true ->
  FOREIGN_KEY_CHECKS (serve P db reqs) = true.
Proof.
  revert db. induction reqs as [|r reqs IH]; intros db Hfk; cbn.
  - exact Hfk.
  - apply IH. now apply handle_keeps_foreign_key_checks.
Qed.

(** ** Recording progress *)

Lemma obj_single (k : string) (v : jsval) : obj [(k, v)] k = v.
Proof. unfold obj, set_field; cbn. now rewrite String.eqb_refl. Qed.

Lemma Qnum_le_zero (n : Qc) : Qnum n <= 0 <-> (n <= number_of_Z 0)%Qc.
Proof.
  unfold Qcle, Qle. rewrite number_of_Z_this. cbn. lia.
Qed.

Lemma Qnum_pos (n : Qc) : 0 < Qnum n <-> (number_of_Z 0 < n)%Qc.
Proof.
  unfold Qclt, Qlt. rewrite number_of_Z_this. cbn. lia.
Qed.

(** A request the guard refuses is answered 400 and changes nothing. *)
Lemma refused_progress_400 (db : DB) (vendorId now : Z) (body : object) :
  invalid_progress P (body "newProgress") = true ->
  post_vendor_progress P db vendorId now body
  = (db, res 400 (Message "Invalid progress value.")).
Proof. intros H. unfold post_vendor_progress. now rewrite H. Qed.

(** What the guard refuses: a missing field, [null], [false], a number
    that is not strictly positive, a string that reads as no number or as
    a number that is not strictly positive. *)
Lemma invalid_progress_cases (v : jsval) :
  invalid_progress P v = true <->
  match v with
  | JUndefined | JNull => True
  | JBool b => b = false
  | JNum n => (n <= number_of_Z 0)%Qc
  | JStr s =>
      s = "" \/ StringToNumber P s = None
      \/ exists n, StringToNumber P s = Some n /\ (n <= number_of_Z 0)%Qc
  end.
Proof.
  unfold invalid_progress, isNaN, le_zero.
  destruct v as [| |b|n|s]; cbn [truthy ToNumber negb orb].
  - tauto.
  - tauto.
  - destruct b; cbn; split; congruence.
  - rewrite <- Qnum_le_zero.
    destruct (Z.eqb_spec (Qnum n) 0) as [E|E], (Z.leb_spec (Qnum n) 0) as [L|L];
      cbn; split; intros; lia || congruence.
  - destruct (String.eqb_spec s "") as [E|E]; cbn; [tauto|].
    destruct (StringToNumber P s) as [n|]; cbn; [|tauto].
    destruct (Z.leb_spec (Qnum n) 0) as [L|L]; split.
    + intros _. right. right. exists n. split; [reflexivity|].
      now apply Qnum_le_zero.
    + reflexivity.
    + discriminate.
    + intros [F|[F|[m [F Hm]]]]; try congruence. inversion F; subst.
      apply Qnum_le_zero in Hm. lia.
Qed.

(** What the progress route does with a number. *)
Lemma post_number_progress (db : DB) (vendorId now : Z) (p : Qc) :
  post_vendor_progress P db vendorId now (obj [("newProgress", JNum p)])
  = if Qnum p <=? 0
    then (db, res 400 (Message "Invalid progress value."))
    else if recordable db vendorId p
    then (append_progress_log db vendorId (stored_progress p) now,
          res 200 (Message "Progress updated successfully!"))
    else (db, res 500 (Message "Failed to update progress.")).
Proof.
  unfold post_vendor_progress. rewrite obj_single.
  unfold invalid_progress, isNaN, le_zero, recordable; cbn [truthy ToNumber].
  destruct (Z.leb_spec (Qnum p) 0) as [Hp|Hp].
  - now rewrite orb_true_r.
  - assert ((Qnum p =? 0) = false) as -> by lia.
    assert ((0 <? Qnum p) = true) as -> by lia. cbn [negb orb andb].
    unfold insert_progress_log, int_in_range; cbn [store_int].
    unfold int_in_range. fold (stored_progress p).
    destruct (in_int_range vendorId); cbn [bind andb ok sql_throw]; [|reflexivity].
    destruct (in_int_range (stored_progress p)); cbn [bind andb ok sql_throw];
      [|reflexivity].
    unfold append_progress_log.
    destruct (FOREIGN_KEY_CHECKS db), (has_vendor db vendorId); cbn;
      reflexivity.
Qed.

Lemma post_number_progress_200 (db : DB) (vendorId now : Z) (p : Qc) :
  status (snd (post_vendor_progress P db vendorId now
                 (obj [("newProgress", JNum p)]))) = 200
  <-> recordable db vendorId p = true.
Proof.
  rewrite post_number_progress.
  destruct (Z.leb_spec (Qnum p) 0) as [Hp|Hp].
  - unfold recordable. assert ((0 <? Qnum p) = false) as -> by lia. cbn.
    split; discriminate.
  - destruct (recordable db vendorId p); cbn; split; congruence.
Qed.

Lemma recordable_positive (db : DB) (vendorId : Z) (p : Qc) :
  recordable db vendorId p = true -> (number_of_Z 0 < p)%Qc.
Proof.
  unfold recordable. intros H. apply Qnum_pos.
  destruct (Z.ltb_spec 0 (Qnum p)); [auto | discriminate].
Qed.

Lemma logs_of_vendor_append (db : DB) (vendorId p now : Z) :
  logs_of_vendor (append_progress_log db vendorId p now) vendorId
  = logs_of_vendor db vendorId ++
    [{| ProgressLog.id := progress_logs_auto_increment db;
        ProgressLog.vendor_id := vendorId;
        ProgressLog.progress := p;
        ProgressLog.timestamp := now |}].
Proof.
  unfold logs_of_vendor; cbn. rewrite filter_app; cbn.
  now rewrite Z.eqb_refl.
Qed.

Lemma sum_Z_app (l1 l2 : list Z) : sum_Z (l1 ++ l2) = sum_Z l1 + sum_Z l2.
Proof.
  unfold sum_Z. induction l1 as [|x l1 IH]; cbn; [reflexivity | rewrite IH; lia].
Qed.

Lemma sum_Z_Permutation (l1 l2 : list Z) :
  Permutation l1 l2 -> sum_Z l1 = sum_Z l2.
Proof.
  unfold sum_Z. induction 1; cbn in *; lia.
Qed.

Lemma total_text_Permutation (l1 l2 : list Z) :
  Permutation l1 l2 -> total_text l1 = total_text l2.
Proof.
  intros H. destruct l1 as [|x l1], l2 as [|y l2]; try reflexivity.
  - now apply Permutation_nil in H.
  - apply Permutation_sym, Permutation_nil in H. discriminate.
  - cbn [total_text]. now rewrite (sum_Z_Permutation _ _ H).
Qed.

Lemma total_text_app_one (xs : list Z) (x : Z) :
  total_text (xs ++ [x]) = JStr (number_to_string (sum_Z xs + x)).
Proof.
  assert (sum_Z (xs ++ [x]) = sum_Z xs + x) as E
      by (rewrite sum_Z_app; unfold sum_Z; cbn; lia).
  rewrite <- E. now destruct xs.
Qed.

Lemma record_all_cons (db : DB) (vendorId now : Z) (p : Qc)
  (entries : list (Z * Qc)) :
  record_all P db vendorId ((now, p) :: entries)
  = let (db1, r) :=
      post_vendor_progress P db vendorId now (obj [("newProgress", JNum p)]) in
    let (db2, rs) := record_all P db1 vendorId entries in
    (db2, r :: rs).
Proof. reflexivity. Qed.

Lemma not_recordable_nonpositive (db : DB) (vendorId : Z) (p : Qc) :
  (Qnum p <=? 0) = true -> recordable db vendorId p = false.
Proof.
  intros Hp. unfold recordable. assert ((0 <? Qnum p) = false) as -> by lia.
  reflexivity.
Qed.

(** Recording a list of numbers: all are answered 200 exactly when each
    is recordable in the first state. *)
Lemma record_all_200 (entries : list (Z * Qc)) (db : DB) (vendorId : Z) :
  Forall (fun r => status r = 200) (snd (record_all P db vendorId entries))
  <-> Forall (fun p => recordable db vendorId p = true) (map snd entries).
Proof.
  revert db. induction entries as [|[now p] entries IH]; intros db.
  - cbn. split; constructor.
  - rewrite record_all_cons, post_number_progress. cbn [map snd].
    rewrite Forall_cons_iff.
    destruct (Qnum p <=? 0) eqn:Ep.
    + rewrite (not_recordable_nonpositive db vendorId p Ep).
      destruct (record_all P db vendorId entries) as [db2 rs]. cbn.
      rewrite Forall_cons_iff. cbn. split; intros [H _]; discriminate.
    + destruct (recordable db vendorId p) eqn:Er.
      * specialize (IH (append_progress_log db vendorId (stored_progress p) now)).
        destruct (record_all P
                    (append_progress_log db vendorId (stored_progress p) now)
                    vendorId entries) as [db2 rs]. cbn in *.
        rewrite Forall_cons_iff, IH. cbn. tauto.
      * destruct (record_all P db vendorId entries) as [db2 rs]. cbn.
        rewrite Forall_cons_iff. cbn. split; intros [H _]; discriminate.
Qed.

(** When all are answered 200, the vendor's entries are the earlier ones
    followed by the numbers, as the column stores them, in order. *)
Lemma record_all_logs (entries : list (Z * Qc)) (db : DB) (vendorId : Z) :
  Forall (fun p => recordable db vendorId p = true) (map snd entries) ->
  map ProgressLog.progress
      (logs_of_vendor (fst (record_all P db vendorId entries)) vendorId)
  = map ProgressLog.progress (logs_of_vendor db vendorId)
    ++ map stored_progress (map snd entries).
Proof.
  revert db. induction entries as [|[now p] entries IH]; intros db Hall.
  - cbn. now rewrite app_nil_r.
  - cbn [map snd] in Hall. apply Forall_cons_iff in Hall.
    destruct Hall as [Hr Hrs].
    rewrite record_all_cons, post_number_progress.
    destruct (Qnum p <=? 0) eqn:Ep;
      [rewrite (not_recordable_nonpositive db vendorId p Ep) in Hr; discriminate|].
    rewrite Hr.
    specialize (IH (append_progress_log db vendorId (stored_progress p) now) Hrs).
    destruct (record_all P
                (append_progress_log db vendorId (stored_progress p) now)
                vendorId entries) as [db2 rs].
    cbn [fst map snd] in *. rewrite IH.
    rewrite logs_of_vendor_append, map_app, <- app_assoc. reflexivity.
Qed.

(** C1: when the progress values [p1 .. pn] posted for a vendor that none
    of the earlier entries belongs to are all answered 200, each of them
    is strictly positive and the progress route then answers 200 with
    the total of the values as the [INT] column stored them, each
    rounded to the nearest integer: the number 0 when nothing was
    posted, the decimal text of the sum otherwise; for whole numbers the
    stored values are the values themselves.  Posted in any other order,
    with whatever request times, they are again all answered 200 and
    the progress route gives the same answer. *)
Theorem stored_progress_is_summed_in_any_order (db : DB) (vendorId : Z)
  (entries entries' : list (Z * Qc)) :
  (forall l, In l (progress_logs db) -> ProgressLog.vendor_id l <> vendorId) ->
  Forall (fun r => status r = 200) (snd (record_all P db vendorId entries)) ->
  Permutation (map snd entries) (map snd entries') ->
  let db1 := fst (record_all P db vendorId entries) in
  let db1' := fst (record_all P db vendorId entries') in
  Forall (fun p => (number_of_Z 0 < p)%Qc) (map snd entries)
  /\ get_vendor_progress db1 vendorId
     = (db1, res 200 (TotalProgress
          (total_text (map stored_progress (map snd entries)))))
  /\ (forall ns : list Z, map snd entries = map number_of_Z ns ->
        map stored_progress (map snd entries) = ns)
  /\ Forall (fun r => status r = 200) (snd (record_all P db vendorId entries'))
  /\ snd (get_vendor_progress db1' vendorId)
     = snd (get_vendor_progress db1 vendorId).
Proof.
  intros Hnone Hall Hperm db1 db1'.
  apply logs_of_vendor_none in Hnone.
  apply record_all_200 in Hall.
  assert (Forall (fun p => recordable db vendorId p = true) (map snd entries'))
    as Hall' by (eapply Permutation_Forall; eauto).
  assert (forall es, Forall (fun p => recordable db vendorId p = true) (map snd es) ->
            get_vendor_progress (fst (record_all P db vendorId es)) vendorId
            = (fst (record_all P db vendorId es),
               res 200 (TotalProgress
                 (total_text (map stored_progress (map snd es)))))) as Hget.
  { intros es Hes. rewrite get_vendor_progress_total.
    rewrite (record_all_logs es db vendorId Hes). now rewrite Hnone. }
  repeat split.
  - eapply Forall_impl; [|exact Hall]. intros p. apply recordable_positive.
  - now apply Hget.
  - intros ns ->. rewrite map_map. rewrite <- (map_id ns) at 2.
    apply map_ext. apply stored_progress_whole.
  - now apply record_all_200.
  - subst db1 db1'. rewrite (Hget entries Hall), (Hget entries' Hall'). cbn.
    do 2 f_equal. apply total_text_Permutation.
    apply Permutation_map, Permutation_sym, Hperm.
Qed.

(** C5: the guard of the progress route lets a value through that is
    not a number: [true] is truthy, reads as the number 1, and 1 is
    positive.  For an existing vendor the request is answered 200, not
    400, and an entry of progress 1 is appended, so the vendor's total
    grows by 1. *)
Theorem boolean_progress_is_recorded (db : DB) (vendorId now : Z) :
  has_vendor db vendorId = true ->
  in_int_range vendorId = true ->
  invalid_progress P (JBool true) = false
  /\ post_vendor_progress P db vendorId now (obj [("newProgress", JBool true)])
     = (append_progress_log db vendorId 1 now,
        res 200 (Message "Progress updated successfully!"))
  /\ snd (get_vendor_progress (append_progress_log db vendorId 1 now) vendorId)
     = res 200 (TotalProgress (JStr (number_to_string
         (sum_Z (map ProgressLog.progress (logs_of_vendor db vendorId)) + 1)))).
Proof.
  intros Hhas Hrange. split; [reflexivity|]. split.
  - unfold post_vendor_progress. rewrite obj_single.
    change (invalid_progress P (JBool true)) with false. cbn iota.
    unfold insert_progress_log, int_in_range. rewrite Hrange.
    cbn [bind ok store_int]. rewrite Hhas, andb_false_r. reflexivity.
  - rewrite get_vendor_progress_total. cbn [snd].
    rewrite logs_of_vendor_append, map_app. cbn [map ProgressLog.progress].
    now rewrite total_text_app_one.
Qed.

Lemma insert_progress_log_unknown_vendor (db : DB) (vendorId timestamp : Z)
  (progress : jsval) :
  FOREIGN_KEY_CHECKS db = true ->
  has_vendor db vendorId = false ->
  exists e, insert_progress_log P db vendorId progress timestamp = inl e.
Proof.
  intros Hfk Hno.
  destruct (insert_progress_log P db vendorId progress timestamp) as [e|db'] eqn:E.
  - now exists e.
  - apply insert_progress_log_ok in E. destruct E as (p & _ & _ & Hhas & _).
    rewrite (Hhas Hfk) in Hno. discriminate.
Qed.

(** C9: in every state the server reaches from a database whose session
    checks foreign keys, recording a progress value that passes the guard
    for a vendor id that no vendor has is answered 500 with the body
    [Failed to update progress.], and the database, so the progress log,
    is as before. *)
Theorem progress_for_unknown_vendor_500 (db0 : DB) (history : list request)
  (vendorId now : Z) (body : object) :
  FOREIGN_KEY_CHECKS db0 = true ->
  let db := serve P db0 history in
  has_vendor db vendorId = false ->
  invalid_progress P (body "newProgress") = false ->
  post_vendor_progress P db vendorId now body
  = (db, res 500 (Message "Failed to update progress.")).
Proof.
  intros Hfk0 db Hno Hvalid. unfold post_vendor_progress. rewrite Hvalid.
  destruct (insert_progress_log_unknown_vendor db vendorId now
              (body "newProgress")) as [e Ee]; auto.
  - subst db. now apply serve_keeps_foreign_key_checks.
  - now rewrite Ee.
Qed.

(** ** Adding a vendor *)

Lemma vendor_guard_passes (body : object) :
  vendor_fields_present body ->
  negb (truthy (body "name")) || negb (truthy (body "walletAddress"))
  || negb (truthy (body "milestoneGoal")) || negb (truthy (body "rewardAmount"))
  = false.
Proof. intros (-> & -> & -> & ->). reflexivity. Qed.

Lemma insert_vendor_duplicate (db : DB) (now : Z)
  (name wallet_address milestone_goal reward_amount : jsval) (w : string) :
  store_varchar P 42 wallet_address = ok w ->
  In w (map Vendor.wallet_address (vendors db)) ->
  exists e,
    insert_vendor P db now name wallet_address milestone_goal reward_amount
    = inl e.
Proof.
  intros Hw Hin. unfold insert_vendor. rewrite Hw.
  destruct (store_varchar P 255 name) as [e|name']; cbn [bind ok]; [eauto|].
  destruct (store_int P milestone_goal) as [e|goal']; cbn [bind]; [eauto|].
  destruct (store_decimal_10_2 P reward_amount) as [e|reward']; cbn [bind];
    [eauto|].
  rewrite (key_taken_In w _ Hin). eexists. reflexivity.
Qed.

(** C2: an add-vendor request with its four fields truthy and a wallet
    address that a vendor has already is answered 500 with the body
    [Failed to add vendor.], not 409; the database, so the vendors
    table, is as before. *)
Theorem add_vendor_duplicate_wallet_500 (db : DB) (now : Z) (body : object)
  (w : string) :
  vendor_fields_present body ->
  store_varchar P 42 (body "walletAddress") = ok w ->
  In w (map Vendor.wallet_address (vendors db)) ->
  post_add_vendor P db now body = (db, res 500 (Message "Failed to add vendor."))
  /\ status (snd (post_add_vendor P db now body)) <> 409.
Proof.
  intros Hp Hw Hin.
  assert (post_add_vendor P db now body
          = (db, res 500 (Message "Failed to add vendor."))) as E.
  { unfold post_add_vendor. rewrite (vendor_guard_passes body Hp).
    destruct (insert_vendor_duplicate db now (body "name")
                (body "walletAddress") (body "milestoneGoal")
                (body "rewardAmount") w Hw Hin) as [e ->].
    reflexivity. }
  split; [exact E | rewrite E; cbn; discriminate].
Qed.

(** The signup route, for comparison, answers a duplicate key with 409. *)
Lemma signup_duplicate_email_409 (db : DB) (now : Z) (salt : string)
  (body : object) (name email hash role : string) (password : string) :
  body "name" = JStr name -> body "email" = JStr email ->
  body "role" = JStr role -> body "password" = JStr password ->
  signup_fields_present body ->
  store_varchar P 255 (JStr name) = ok name ->
  store_varchar P 255 (JStr email) = ok email ->
  store_varchar P 255 (JStr (bcrypt_hash P password salt))
  = ok (bcrypt_hash P password salt) ->
  In role role_enum ->
  In email (map User.email (users db)) ->
  post_signup P db now salt body
  = (db, res 409 (Message "An account with this email already exists.")).
Proof.
  intros En Ee Er Ep Hp Hn He Hh Hr Hin. unfold post_signup.
  rewrite (signup_guard_passes body Hp), En, Ee, Er, Ep.
  cbn [bcrypt_hash_js bind ok]. unfold insert_user.
  rewrite Hn, He, Hh. cbn [bind ok].
  destruct (store_enum_name_accepted role_enum role Hr) as [m ->].
  cbn [bind ok]. rewrite (key_taken_In email _ Hin). reflexivity.
Qed.

(** ** The constraints hold in every state the server reaches *)

Lemma NoDup_snoc {A} (l : list A) (a : A) :
  NoDup l -> ~ In a l -> NoDup (l ++ [a]).
Proof.
  intros Hl Ha. apply NoDup_app; [exact Hl | repeat constructor; intros [] |].
  intros x Hx [<-|[]]. contradiction.
Qed.

Lemma insert_user_consistent (db db' : DB) (now : Z)
  (name email password_hash role : jsval) :
  insert_user P db now name email password_hash role = inr db' ->
  consistent db -> consistent db'.
Proof.
  intros E (Hfk & Hemail & Hrole & Hrest). apply insert_user_ok in E.
  destruct E as (n' & e' & h' & r' & _ & _ & _ & Hr & Hkey & ->).
  apply key_taken_false in Hkey. destruct Hkey as [_ Hnew].
  unfold consistent; cbn. split; [exact Hfk|]. split; [|split; [|exact Hrest]].
  - rewrite map_app. cbn. now apply NoDup_snoc.
  - apply Forall_app. split; [exact Hrole|].
    constructor; [|constructor]. exact (store_enum_member _ role _ Hr).
Qed.

Lemma has_vendor_app (db : DB) (vs : list Vendor.t) (vendorId : Z) :
  existsb (fun v => Vendor.id v =? vendorId) (vendors db) = true ->
  existsb (fun v => Vendor.id v =? vendorId) (vendors db ++ vs) = true.
Proof. intros H. rewrite existsb_app, H. reflexivity. Qed.

Lemma insert_vendor_consistent (db db' : DB) (now insertId : Z)
  (name wallet_address milestone_goal reward_amount : jsval) :
  insert_vendor P db now name wallet_address milestone_goal reward_amount
  = inr (db', insertId) ->
  consistent db -> consistent db'.
Proof.
  intros E (Hfk & Hemail & Hrole & Hwallet & Hid & Hlt & Hlogs).
  apply insert_vendor_ok in E.
  destruct E as (n' & w' & g' & r' & _ & _ & _ & _ & Hkey & _ & ->).
  apply key_taken_false in Hkey. destruct Hkey as [_ Hnew].
  unfold consistent; cbn. repeat split; try assumption.
  - rewrite map_app. cbn. now apply NoDup_snoc.
  - rewrite map_app. cbn. apply NoDup_snoc; [exact Hid|].
    intros Hin. apply in_map_iff in Hin. destruct Hin as [v [Ev Hv]].
    rewrite Forall_forall in Hlt. specialize (Hlt v Hv). lia.
  - apply Forall_app. split.
    + eapply Forall_impl; [|exact Hlt]. cbn. intros; lia.
    + constructor; [cbn; lia | constructor].
  - eapply Forall_impl; [|exact Hlogs]. intros l Hl. unfold has_vendor in *.
    cbn. now apply has_vendor_app.
Qed.

Lemma insert_progress_log_consistent (db db' : DB) (vendorId timestamp : Z)
  (progress : jsval) :
  insert_progress_log P db vendorId progress timestamp = inr db' ->
  consistent db -> consistent db'.
Proof.
  intros E (Hfk & Hemail & Hrole & Hwallet & Hid & Hlt & Hlogs).
  apply insert_progress_log_ok in E. destruct E as (p & _ & _ & Hhas & ->).
  unfold consistent; cbn. repeat split; try assumption.
  apply Forall_app. split; [exact Hlogs|].
  constructor; [|constructor]. cbn. now apply Hhas.
Qed.

Lemma update_vendor_is_paid_columns {A} (f : Vendor.t -> A) (db : DB)
  (vendorId : Z) :
  (forall v b, f (Vendor.set_is_paid v b) = f v) ->
  map f (vendors (update_vendor_is_paid db vendorId)) = map f (vendors db).
Proof.
  intros Hf. cbn. rewrite map_map. apply map_ext. intros v.
  destruct (Vendor.id v =? vendorId); [apply Hf | reflexivity].
Qed.

Lemma has_vendor_ids (db : DB) (vendorId : Z) :
  has_vendor db vendorId
  = existsb (fun i => i =? vendorId) (map Vendor.id (vendors db)).
Proof.
  unfold has_vendor. induction (vendors db) as [|v vs IH]; cbn;
    [reflexivity | now rewrite IH].
Qed.

Lemma has_vendor_map_id (db1 db2 : DB) (vendorId : Z) :
  map Vendor.id (vendors db1) = map Vendor.id (vendors db2) ->
  has_vendor db1 vendorId = has_vendor db2 vendorId.
Proof.
  intros E. now rewrite !has_vendor_ids, E.
Qed.

Lemma update_vendor_is_paid_consistent (db : DB) (vendorId : Z) :
  consistent db -> consistent (update_vendor_is_paid db vendorId).
Proof.
  intros (Hfk & Hemail & Hrole & Hwallet & Hid & Hlt & Hlogs).
  unfold consistent. repeat split; try assumption.
  - now rewrite (update_vendor_is_paid_columns Vendor.wallet_address).
  - now rewrite (update_vendor_is_paid_columns Vendor.id).
  - cbn. rewrite Forall_map. eapply Forall_impl; [|exact Hlt].
    intros v Hv. now destruct (Vendor.id v =? vendorId).
  - cbn [progress_logs update_vendor_is_paid].
    eapply Forall_impl; [|exact Hlogs]. intros l Hl.
    rewrite <- Hl. apply has_vendor_map_id.
    now apply (update_vendor_is_paid_columns Vendor.id).
Qed.

Lemma empty_db_consistent : consistent empty_db.
Proof. unfold consistent; cbn. repeat split; constructor. Qed.

Lemma handle_consistent (db : DB) (req : request) :
  consistent db -> consistent (fst (handle P db req)).
Proof.
  intros Hc. destruct req as [now salt body|body| |now body|v|v now body|v|];
    cbn [handle].
  - unfold post_signup. destruct (_ || _); [exact Hc|].
    destruct (bind _ _) as [e|db'] eqn:E.
    + destruct (is_ER_DUP_ENTRY e); exact Hc.
    + destruct (bcrypt_hash_js P (body "password") salt); cbn [bind] in E;
        [discriminate|].
      cbn. eapply insert_user_consistent; eauto.
  - unfold post_login. destruct (_ || _); [exact Hc|].
    destruct (select_users_by_email _ _ _); [exact Hc|].
    destruct (bcrypt_compare_js _ _ _) as [e|m]; [exact Hc|].
    destruct (negb m); [exact Hc|].
    destruct (strict_neq_string _ _); exact Hc.
  - exact Hc.
  - unfold post_add_vendor. destruct (_ || _); [exact Hc|].
    destruct (insert_vendor _ _ _ _ _ _ _) as [e|[db' i]] eqn:E; [exact Hc|].
    cbn. eapply insert_vendor_consistent; eauto.
  - exact Hc.
  - unfold post_vendor_progress. destruct (invalid_progress _ _); [exact Hc|].
    destruct (insert_progress_log _ _ _ _ _) as [e|db'] eqn:E; [exact Hc|].
    cbn. eapply insert_progress_log_consistent; eauto.
  - now apply update_vendor_is_paid_consistent.
  - rewrite post_reset_empty. apply empty_db_consistent.
Qed.

(** The server keeps the constraints of its tables: from a consistent
    database, and so from a new one, every state it reaches is
    consistent. *)
Lemma serve_consistent (reqs : list request) (db : DB) :
  consistent db -> consistent (serve P db reqs).
Proof.
  revert db. induction reqs as [|r reqs IH]; intros db Hc; cbn.
  - exact Hc.
  - apply IH. now apply handle_consistent.
Qed.

(** With unique ids a payout touches one vendor at most. *)
Lemma payout_touches_one_vendor (db : DB) (vendorId : Z) (v w : Vendor.t) :
  consistent db ->
  In v (vendors db) -> In w (vendors db) ->
  Vendor.id v = vendorId -> Vendor.id w = vendorId -> v = w.
Proof.
  intros (_ & _ & _ & _ & Hid & _) Hv Hw Ev Ew.
  apply (NoDup_map_injective Vendor.id (vendors db)); auto. congruence.
Qed.

(** ** Listing vendors *)

Lemma insert_by_name_Permutation (v : Vendor.t) (l : list Vendor.t) :
  Permutation (insert_by_name P v l) (v :: l).
Proof.
  induction l as [|w l IH]; cbn; [reflexivity|].
  destruct (name_leb P v w); [reflexivity|].
  rewrite IH. apply perm_swap.
Qed.

Lemma insert_by_name_HdRel (u v : Vendor.t) (l : list Vendor.t) :
  by_name P u v -> HdRel (by_name P) u l ->
  HdRel (by_name P) u (insert_by_name P v l).
Proof.
  intros Huv Hl. destruct l as [|w l]; cbn; [now constructor|].
  destruct (name_leb P v w); constructor;
    [exact Huv | now inversion Hl].
Qed.

Lemma insert_by_name_Sorted (v : Vendor.t) (l : list Vendor.t) :
  Sorted (by_name P) l -> Sorted (by_name P) (insert_by_name P v l).
Proof.
  induction l as [|w l IH]; cbn; intros Hs.
  - repeat constructor.
  - destruct (name_leb P v w) eqn:E.
    + constructor; [exact Hs | constructor; exact E].
    + apply Sorted_inv in Hs. destruct Hs as [Hs Hhd].
      constructor; [now apply IH|].
      apply insert_by_name_HdRel; [|exact Hhd].
      unfold by_name, name_leb in *.
      destruct (String.leb_total (collate P (Vendor.name v))
                  (collate P (Vendor.name w))) as [H|H]; congruence.
Qed.

(** The vendor list is answered 200 with the rows of the vendors table,
    each once, in ascending order of the sort keys of their names under
    the collation of the column; the database is as before. *)
Theorem vendors_listed_in_name_order (db : DB) :
  exists rows,
    get_vendors P db = (db, res 200 (VendorRows rows))
    /\ Permutation rows (vendors db)
    /\ Sorted (by_name P) rows.
Proof.
  exists (select_vendors_order_by_name P db). split; [reflexivity|].
  unfold select_vendors_order_by_name.
  induction (vendors db) as [|v vs [IHp IHs]]; cbn.
  - split; constructor.
  - split.
    + rewrite insert_by_name_Permutation. now constructor.
    + now apply insert_by_name_Sorted.
Qed.

(** ** Signup *)

(** A signup is answered 201 only when the password is a string and the
    [ENUM] column takes the role for one of its values; it then appends
    one user, whose id is the counter of the table, whose email has a
    sort key that no stored email has, whose [password_hash] is the
    bcrypt hash of the password and whose role is that value (a member
    when the role given is not a string), and touches nothing else. *)
Theorem signup_201_appends_one_user (db : DB) (now : Z) (salt : string)
  (body : object) :
  status (snd (post_signup P db now salt body)) = 201 ->
  exists name email password role,
    store_varchar P 255 (body "name") = ok name
    /\ store_varchar P 255 (body "email") = ok email
    /\ body "password" = JStr password
    /\ store_enum P role_enum (body "role") = ok role
    /\ In role (enum_values role_enum)
    /\ ((forall t, body "role" <> JStr t) -> In role role_enum)
    /\ (forall u, In u (users db) ->
          collate P (User.email u) <> collate P email)
    /\ users (fst (post_signup P db now salt body))
       = users db ++
         [{| User.id := users_auto_increment db; User.name := name;
             User.email := email;
             User.password_hash := bcrypt_hash P password salt;
             User.role := role; User.created_at := now |}]
    /\ vendors (fst (post_signup P db now salt body)) = vendors db
    /\ progress_logs (fst (post_signup P db now salt body)) = progress_logs db.
Proof.
  unfold post_signup. destruct (_ || _); [cbn; discriminate|].
  destruct (body "password") as [| |b|n|password]; cbn [bcrypt_hash_js bind throw ok];
    try (cbn; discriminate).
  destruct (insert_user P db now (body "name") (body "email")
              (JStr (bcrypt_hash P password salt)) (body "role")) as [e|db'] eqn:E.
  - destruct (is_ER_DUP_ENTRY e); cbn; discriminate.
  - intros _. apply insert_user_ok in E.
    destruct E as (name & email & hash & role & Hn & He & Hh & Hr & Hnew & ->).
    cbn in Hh. apply fits_ok in Hh. destruct Hh as [-> _].
    apply key_taken_false in Hnew. destruct Hnew as [Hkey _].
    exists name, email, password, role. cbn. repeat split; auto.
    + exact (store_enum_member _ _ _ Hr).
    + intros Hnum. exact (store_enum_number_member _ _ _ Hnum Hr).
    + intros u Hu Ekey. apply Hkey. rewrite map_map.
      apply in_map_iff. exists u. auto.
Qed.

Lemma signup_body_fields (name email role password : string) :
  signup_body name email role password "name" = JStr name
  /\ signup_body name email role password "email" = JStr email
  /\ signup_body name email role password "role" = JStr role
  /\ signup_body name email role password "password" = JStr password.
Proof. repeat split. Qed.

Lemma login_body_fields (email password role : string) :
  login_body email password role "email" = JStr email
  /\ login_body email password role "password" = JStr password
  /\ login_body email password role "role" = JStr role.
Proof. repeat split. Qed.

Lemma truthy_string (s : string) : truthy (JStr s) = true <-> s <> "".
Proof.
  cbn. destruct (String.eqb_spec s "") as [E|E]; cbn; split; intros H;
    congruence.
Qed.

Lemma filter_email_absent (email : string) (us : list User.t) :
  ~ In (collate P email) (map (collate P) (map User.email us)) ->
  filter (fun u => varchar_eq P (User.email u) (JStr email)) us = [].
Proof.
  induction us as [|u us IH]; cbn; intros Hnot; [reflexivity|].
  unfold collate_eqb.
  destruct (String.eqb_spec (collate P (User.email u)) (collate P email))
    as [E|E].
  - destruct Hnot. now left.
  - apply IH. intros H. apply Hnot. now right.
Qed.

Lemma signup_strings_201 (db : DB) (now : Z) (salt : string)
  (name email role password : string) :
  NoDup (map (collate P) role_enum) -> In role role_enum ->
  let after := post_signup P db now salt (signup_body name email role password) in
  status (snd after) = 201 ->
  ~ In (collate P email) (map (collate P) (map User.email (users db)))
  /\ users (fst after)
     = users db ++
       [{| User.id := users_auto_increment db; User.name := name;
           User.email := email;
           User.password_hash := bcrypt_hash P password salt;
           User.role := role; User.created_at := now |}]
  /\ login_fields_present (login_body email password role).
Proof.
  intros Hkeys Hrole. cbv zeta. unfold post_signup.
  destruct (signup_body_fields name email role password) as (-> & -> & -> & ->).
  destruct (truthy (JStr name)), (truthy (JStr email)) eqn:Te,
    (truthy (JStr role)) eqn:Tr, (truthy (JStr password)) eqn:Tp;
    cbn [negb orb]; try (cbn; discriminate).
  cbn [bcrypt_hash_js bind ok].
  destruct (insert_user P db now (JStr name) (JStr email)
              (JStr (bcrypt_hash P password salt)) (JStr role)) as [e|db'] eqn:E;
    [destruct (is_ER_DUP_ENTRY e); cbn; discriminate|].
  intros _. apply insert_user_ok in E.
  destruct E as (n' & e' & h' & r' & Hn & He & Hh & Hr & Hnew & ->).
  cbn in Hn, He, Hh. apply fits_ok in Hn, He, Hh.
  destruct Hn as [-> _], He as [-> _], Hh as [-> _].
  rewrite (store_enum_exact role Hkeys Hrole) in Hr. inversion Hr; subst r'.
  apply key_taken_false in Hnew. destruct Hnew as [Hkey _].
  cbn [fst users]. repeat split; auto.
Qed.

(** When bcrypt recognises the hashes it makes and the three roles have
    different sort keys, a signup with string fields and a role that is
    one of the three names as written, answered 201, can be followed by
    a login with the same email, password and role, which is answered
    200 with the id, name, email and role of the new user. *)
Theorem signup_then_login (db : DB) (now : Z) (salt : string)
  (name email role password : string) :
  (forall p s, bcrypt_compare P p (bcrypt_hash P p s) = true) ->
  NoDup (map (collate P) role_enum) ->
  In role role_enum ->
  let after := post_signup P db now salt (signup_body name email role password) in
  status (snd after) = 201 ->
  post_login P (fst after) (login_body email password role)
  = (fst after,
     res 200 (LoginUser "Login successful!" (users_auto_increment db)
                name email role)).
Proof.
  intros Hbcrypt Hkeys Hrole after H201.
  destruct (signup_strings_201 db now salt name email role password
              Hkeys Hrole H201) as (Hnew & Hus & Hpresent).
  fold after in Hus.
  unfold post_login. rewrite (login_guard_passes _ Hpresent).
  destruct (login_body_fields email password role) as (-> & -> & ->).
  unfold select_users_by_email. rewrite Hus, filter_app.
  rewrite (filter_email_absent email (users db) Hnew).
  cbn [filter app varchar_eq User.email]. unfold collate_eqb.
  rewrite String.eqb_refl. cbn [bcrypt_compare_js User.password_hash].
  rewrite Hbcrypt. cbn. rewrite String.eqb_refl. reflexivity.
Qed.

(** A signup whose email is stored already, with a name, a password and
    a role the table would take, is answered 409 and changes nothing. *)
Theorem signup_stored_email_409 (db : DB) (now : Z) (salt : string)
  (name email role password : string) :
  name <> "" -> email <> "" -> password <> "" ->
  (String.length name <= 255)%nat ->
  (String.length email <= 255)%nat ->
  (String.length (bcrypt_hash P password salt) <= 255)%nat ->
  In role role_enum ->
  In email (map User.email (users db)) ->
  post_signup P db now salt (signup_body name email role password)
  = (db, res 409 (Message "An account with this email already exists.")).
Proof.
  intros Hn He Hp Ln Le Lh Hr Hin.
  apply (signup_duplicate_email_409 db now salt _ name email
           (bcrypt_hash P password salt) role password);
    try reflexivity; try (cbn; now apply fits_length); try assumption.
  assert (role <> "") as Hrole
      by (intros ->; cbn in Hr; intuition discriminate).
  repeat split; apply truthy_string; assumption.
Qed.



(** ** Login *)

(** A login is answered 200 only for a stored user whose email the
    request's email selects, whose hash bcrypt finds to match the
    password, a string, and whose role is the requested one; the response
    carries that user's id, name, email and role. *)
Theorem login_200_only_for_matching_user (db : DB) (body : object) :
  status (snd (post_login P db body)) = 200 ->
  exists user password,
    In user (users db)
    /\ varchar_eq P (User.email user) (body "email") = true
    /\ body "password" = JStr password
    /\ bcrypt_compare P password (User.password_hash user) = true
    /\ body "role" = JStr (User.role user)
    /\ post_login P db body
       = (db, res 200 (LoginUser "Login successful!" (User.id user)
                         (User.name user) (User.email user) (User.role user))).
Proof.
  unfold post_login. destruct (_ || _); [cbn; discriminate|].
  destruct (select_users_by_email P db (body "email")) as [|user rest] eqn:Erows;
    [cbn; discriminate|].
  assert (In user (select_users_by_email P db (body "email"))) as Hin
      by (rewrite Erows; now left).
  apply filter_In in Hin. destruct Hin as [Hin Hmail].
  destruct (body "password") as [| |b|n|password]; cbn [bcrypt_compare_js throw ok];
    try (cbn; discriminate).
  destruct (bcrypt_compare P password (User.password_hash user)) eqn:Ecmp;
    cbn [negb]; [|cbn; discriminate].
  destruct (body "role") as [| |b|n|role]; cbn [strict_neq_string];
    try (cbn; discriminate).
  destruct (String.eqb_spec (User.role user) role) as [Er|Er]; cbn [negb];
    [|cbn; discriminate].
  intros _. exists user, password. subst role. repeat split; auto.
Qed.

(** With a password that is not a string bcrypt throws: the login is
    answered 500 when the email selects a user and 401 when it selects
    none. *)
Theorem login_password_not_a_string (db : DB) (body : object) :
  login_fields_present body ->
  (forall s, body "password" <> JStr s) ->
  post_login P db body
  = (db, match select_users_by_email P db (body "email") with
         | [] => res 401 (Message "Invalid email or password.")
         | _ :: _ => res 500 (Message "An internal server error occurred.")
         end).
Proof.
  intros Hp Hnot. unfold post_login. rewrite (login_guard_passes body Hp).
  destruct (select_users_by_email P db (body "email")); [reflexivity|].
  destruct (body "password") as [| |b|n|s]; try reflexivity.
  now destruct (Hnot s).
Qed.

Lemma filter_one_key (email : string) (us : list User.t) :
  NoDup (map (fun u => collate P (User.email u)) us) ->
  (List.length
     (filter (fun u => varchar_eq P (User.email u) (JStr email)) us) <= 1)%nat.
Proof.
  induction us as [|u us IH]; cbn; intros Hnd; [lia|].
  apply NoDup_cons_iff in Hnd. destruct Hnd as [Hnot Hnd].
  unfold collate_eqb.
  destruct (String.eqb_spec (collate P (User.email u)) (collate P email))
    as [E|E]; [|now apply IH].
  rewrite E in Hnot. rewrite <- map_map in Hnot.
  pose proof (filter_email_absent email us Hnot) as F. cbn in F.
  unfold collate_eqb in F. rewrite F. cbn. lia.
Qed.

(** *** The unique indexes are kept *)

Lemma insert_user_unique_keys (db db' : DB) (now : Z)
  (name email password_hash role : jsval) :
  insert_user P db now name email password_hash role = inr db' ->
  unique_keys P db -> unique_keys P db'.
Proof.
  intros E [Hu Hv]. apply insert_user_ok in E.
  destruct E as (n' & e' & h' & r' & _ & _ & _ & _ & Hkey & ->).
  apply key_taken_false in Hkey. destruct Hkey as [Hkey _].
  split; cbn; [|exact Hv]. rewrite map_app. cbn.
  apply NoDup_snoc; [exact Hu|]. now rewrite map_map in Hkey.
Qed.

Lemma insert_vendor_unique_keys (db db' : DB) (now insertId : Z)
  (name wallet_address milestone_goal reward_amount : jsval) :
  insert_vendor P db now name wallet_address milestone_goal reward_amount
  = inr (db', insertId) ->
  unique_keys P db -> unique_keys P db'.
Proof.
  intros E [Hu Hv]. apply insert_vendor_ok in E.
  destruct E as (n' & w' & g' & r' & _ & _ & _ & _ & Hkey & _ & ->).
  apply key_taken_false in Hkey. destruct Hkey as [Hkey _].
  split; cbn; [exact Hu|]. rewrite map_app. cbn.
  apply NoDup_snoc; [exact Hv|]. now rewrite map_map in Hkey.
Qed.

Lemma handle_unique_keys (db : DB) (req : request) :
  unique_keys P db -> unique_keys P (fst (handle P db req)).
Proof.
  intros Hc. destruct req as [now salt body|body| |now body|v|v now body|v|];
    cbn [handle].
  - unfold post_signup. destruct (_ || _); [exact Hc|].
    destruct (bind _ _) as [e|db'] eqn:E.
    + destruct (is_ER_DUP_ENTRY e); exact Hc.
    + destruct (bcrypt_hash_js P (body "password") salt); cbn [bind] in E;
        [discriminate|].
      cbn. eapply insert_user_unique_keys; eauto.
  - unfold post_login. destruct (_ || _); [exact Hc|].
    destruct (select_users_by_email _ _ _); [exact Hc|].
    destruct (bcrypt_compare_js _ _ _) as [e|m]; [exact Hc|].
    destruct (negb m); [exact Hc|].
    destruct (strict_neq_string _ _); exact Hc.
  - exact Hc.
  - unfold post_add_vendor. destruct (_ || _); [exact Hc|].
    destruct (insert_vendor _ _ _ _ _ _ _) as [e|[db' i]] eqn:E; [exact Hc|].
    cbn. eapply insert_vendor_unique_keys; eauto.
  - exact Hc.
  - unfold post_vendor_progress. destruct (invalid_progress _ _); [exact Hc|].
    destruct (insert_progress_log _ _ _ _ _) as [e|db'] eqn:E; [exact Hc|].
    apply insert_progress_log_ok in E. destruct E as (p & _ & _ & _ & ->).
    exact Hc.
  - destruct Hc as [Hu Hv]. split; [exact Hu|].
    cbn [post_vendor_payout fst].
    now rewrite (update_vendor_is_paid_columns
                   (fun v => collate P (Vendor.wallet_address v))).
  - rewrite post_reset_empty. split; constructor.
Qed.

Lemma serve_unique_keys (reqs : list request) (db : DB) :
  unique_keys P db -> unique_keys P (serve P db reqs).
Proof.
  revert db. induction reqs as [|r reqs IH]; intros db Hc; cbn.
  - exact Hc.
  - apply IH. now apply handle_unique_keys.
Qed.

(** In every state the server reaches from a database without two
    emails of one sort key, and so from a new database, the query of the
    login route with an email given as a string selects one user at
    most, however the email is written. *)
Theorem string_email_selects_at_most_one (db0 : DB) (reqs : list request)
  (email : string) :
  unique_keys P db0 ->
  (List.length (select_users_by_email P (serve P db0 reqs) (JStr email)) <= 1)%nat.
Proof.
  intros Hc. apply (serve_unique_keys reqs) in Hc. destruct Hc as [Hu _].
  now apply filter_one_key.
Qed.

(** ** What the routes leave alone *)

(** A request that is not answered 200 or 201 has no effect on the
    database. *)
Theorem unsuccessful_request_changes_nothing (db : DB) (req : request) :
  status (snd (handle P db req)) <> 200 ->
  status (snd (handle P db req)) <> 201 ->
  fst (handle P db req) = db.
Proof.
  destruct req as [now salt body|body| |now body|v|v now body|v|];
    cbn [handle]; intros H200 H201.
  - unfold post_signup in *. destruct (_ || _); [reflexivity|].
    destruct (bind _ _) as [e|db']; [destruct (is_ER_DUP_ENTRY e); reflexivity|].
    now destruct H201.
  - unfold post_login. destruct (_ || _); [reflexivity|].
    destruct (select_users_by_email _ _ _); [reflexivity|].
    destruct (bcrypt_compare_js _ _ _) as [e|m]; [reflexivity|].
    destruct (negb m); [reflexivity|].
    destruct (strict_neq_string _ _); reflexivity.
  - reflexivity.
  - unfold post_add_vendor in *. destruct (_ || _); [reflexivity|].
    destruct (insert_vendor _ _ _ _ _ _ _) as [e|[db' i]]; [reflexivity|].
    now destruct H201.
  - reflexivity.
  - unfold post_vendor_progress in *. destruct (invalid_progress _ _); [reflexivity|].
    destruct (insert_progress_log _ _ _ _ _) as [e|db']; [reflexivity|].
    now destruct H200.
  - now destruct H200.
  - rewrite post_reset_empty in H200. now destruct H200.
Qed.

Lemma post_login_database (db : DB) (body : object) :
  fst (post_login P db body) = db.
Proof.
  unfold post_login. destruct (_ || _); [reflexivity|].
  destruct (select_users_by_email _ _ _); [reflexivity|].
  destruct (bcrypt_compare_js _ _ _) as [e|m]; [reflexivity|].
  destruct (negb m); [reflexivity|].
  destruct (strict_neq_string _ _); reflexivity.
Qed.

(** The login route and the two GET routes never change the database,
    whatever they answer. *)
Theorem reading_routes_change_nothing (db : DB) (body : object) (vendorId : Z) :
  fst (post_login P db body) = db
  /\ fst (get_vendors P db) = db
  /\ fst (get_vendor_progress db vendorId) = db.
Proof.
  repeat split. apply post_login_database.
Qed.

(** Every response has one of the status codes of its route: the signup
    route never answers 401 or 403, the add-vendor route never 409, and
    so on. *)
Theorem response_status_of_route (db : DB) (req : request) :
  In (status (snd (handle P db req))) (statuses req).
Proof.
  destruct req as [now salt body|body| |now body|v|v now body|v|];
    cbn [handle statuses].
  - unfold post_signup. destruct (_ || _); [cbn; auto|].
    destruct (bind _ _) as [e|db']; [destruct (is_ER_DUP_ENTRY e)|]; cbn; auto.
  - unfold post_login. destruct (_ || _); [cbn; auto|].
    destruct (select_users_by_email _ _ _); [cbn; auto|].
    destruct (bcrypt_compare_js _ _ _) as [e|m]; [cbn; auto 6|].
    destruct (negb m); [cbn; auto|].
    destruct (strict_neq_string _ _); cbn; auto 6.
  - cbn; auto.
  - unfold post_add_vendor. destruct (_ || _); [cbn; auto|].
    destruct (insert_vendor _ _ _ _ _ _ _) as [e|[db' i]]; cbn; auto.
  - cbn; auto.
  - unfold post_vendor_progress. destruct (invalid_progress _ _); [cbn; auto|].
    destruct (insert_progress_log _ _ _ _ _) as [e|db']; cbn; auto.
  - cbn; auto.
  - rewrite post_reset_empty. cbn; auto.
Qed.

(** ** Adding a vendor *)



Lemma counter_is_no_vendor (db : DB) :
  consistent db -> has_vendor db (vendors_auto_increment db) = false.
Proof.
  intros (_ & _ & _ & _ & _ & Hlt & _). apply has_vendor_false.
  intros v Hv. rewrite Forall_forall in Hlt. specialize (Hlt v Hv). lia.
Qed.

Lemma no_logs_without_vendor (db : DB) (vendorId : Z) :
  consistent db -> has_vendor db vendorId = false ->
  logs_of_vendor db vendorId = [].
Proof.
  intros (_ & _ & _ & _ & _ & _ & Hlogs) Hno. unfold logs_of_vendor.
  induction (progress_logs db) as [|l ls IH]; cbn; [reflexivity|].
  apply Forall_cons_iff in Hlogs. destruct Hlogs as [Hl Hls].
  destruct (Z.eqb_spec (ProgressLog.vendor_id l) vendorId) as [E|E];
    [|now apply IH].
  rewrite E in Hl. congruence.
Qed.

(** In a consistent database an add-vendor request that is answered 201
    appends one vendor: its id is the [vendorId] of the response, no
    vendor had that id before, it is not paid, its wallet address was not
    registered before, and its total progress is 0. *)
Theorem added_vendor_is_new (db : DB) (now : Z) (body : object) :
  consistent db ->
  status (snd (post_add_vendor P db now body)) = 201 ->
  let db' := fst (post_add_vendor P db now body) in
  exists v,
    vendors db' = vendors db ++ [v]
    /\ snd (post_add_vendor P db now body)
       = res 201 (VendorAdded "Vendor added successfully!" (Vendor.id v))
    /\ has_vendor db (Vendor.id v) = false
    /\ has_vendor db' (Vendor.id v) = true
    /\ Vendor.is_paid v = false
    /\ ~ In (Vendor.wallet_address v) (map Vendor.wallet_address (vendors db))
    /\ get_vendor_progress db' (Vendor.id v)
       = (db', res 200 (TotalProgress (JNum 0))).
Proof.
  intros Hc. unfold post_add_vendor. destruct (_ || _); [cbn; discriminate|].
  destruct (insert_vendor _ _ _ _ _ _ _) as [e|[db' i]] eqn:E;
    [cbn; discriminate|].
  intros _. apply insert_vendor_ok in E.
  destruct E as (name' & wallet' & goal' & reward' & _ & _ & _ & _ & Hw & -> & ->).
  apply key_taken_false in Hw. destruct Hw as [_ Hw].
  cbn [fst snd]. eexists. split; [reflexivity|]. cbn [Vendor.id Vendor.is_paid
    Vendor.wallet_address]. repeat split; auto.
  - now apply counter_is_no_vendor.
  - unfold has_vendor; cbn. rewrite existsb_app; cbn.
    rewrite Z.eqb_refl. now rewrite orb_true_r.
  - rewrite get_vendor_progress_total.
    pose proof (no_logs_without_vendor db (vendors_auto_increment db) Hc
                  (counter_is_no_vendor db Hc)) as Hnone.
    unfold logs_of_vendor in *. cbn. now rewrite Hnone.
Qed.


(** ** Recording progress *)

(** For a [newProgress] that is missing or a JSON scalar, the progress
    route answers 400 exactly when it is missing, [null], [false], a
    number that is not strictly positive, or a string that is empty or
    reads as no number or as a number that is not strictly positive; the
    database is then as before. *)
Theorem progress_400_iff_refused (db : DB) (vendorId now : Z) (body : object) :
  (status (snd (post_vendor_progress P db vendorId now body)) = 400
   <-> match body "newProgress" with
       | JUndefined | JNull => True
       | JBool b => b = false
       | JNum n => (n <= number_of_Z 0)%Qc
       | JStr s =>
           s = "" \/ StringToNumber P s = None
           \/ exists n, StringToNumber P s = Some n /\ (n <= number_of_Z 0)%Qc
       end)
  /\ (status (snd (post_vendor_progress P db vendorId now body)) = 400 ->
      post_vendor_progress P db vendorId now body
      = (db, res 400 (Message "Invalid progress value."))).
Proof.
  rewrite <- invalid_progress_cases. unfold post_vendor_progress.
  destruct (invalid_progress P (body "newProgress")).
  - cbn. repeat split; reflexivity.
  - destruct (insert_progress_log _ _ _ _ _) as [e|db']; cbn;
      (split; [split; discriminate | discriminate]).
Qed.

Lemma round_half_away_nonnegative (a : Z) (d : positive) :
  0 <= a -> 0 <= round_half_away a d.
Proof.
  intros H. unfold round_half_away. apply Z.leb_le in H. rewrite H.
  apply Z.leb_le in H. apply Z.div_pos; lia.
Qed.

Lemma round_half_away_nonpositive (a : Z) (d : positive) :
  a <= 0 -> round_half_away a d <= 0.
Proof.
  intros H. unfold round_half_away. destruct (Z.leb_spec 0 a) as [L|L].
  - assert (a = 0) as -> by lia. rewrite Z.div_small; lia.
  - assert (0 <= (2 * - a + Z.pos d) / (2 * Z.pos d))
      by (apply Z.div_pos; lia).
    lia.
Qed.

(** A strictly positive number posted for an existing vendor is always
    recorded when the integer it rounds to is in the range of [INT],
    whatever the vendor's goal, earlier progress or paid flag: the answer
    is 200, one entry is appended with the time of the request and the
    number rounded to the nearest integer (the number itself when it is
    whole), and the vendor's total, reported as decimal text, grows by
    that integer. *)
Theorem positive_number_is_added_to_total (db : DB) (vendorId now : Z) (p : Qc) :
  (number_of_Z 0 < p)%Qc ->
  stored_progress p <= 2147483647 ->
  in_int_range vendorId = true ->
  has_vendor db vendorId = true ->
  let body := obj [("newProgress", JNum p)] in
  let db' := fst (post_vendor_progress P db vendorId now body) in
  snd (post_vendor_progress P db vendorId now body)
  = res 200 (Message "Progress updated successfully!")
  /\ progress_logs db'
     = progress_logs db ++
       [{| ProgressLog.id := progress_logs_auto_increment db;
           ProgressLog.vendor_id := vendorId;
           ProgressLog.progress := stored_progress p;
           ProgressLog.timestamp := now |}]
  /\ snd (get_vendor_progress db' vendorId)
     = res 200 (TotalProgress (JStr (number_to_string
         (total_progress db vendorId + stored_progress p))))
  /\ (forall n : Z, p = number_of_Z n -> stored_progress p = n).
Proof.
  intros Hpos Hmax Hv Hhas body db'. subst body db'.
  apply Qnum_pos in Hpos.
  rewrite post_number_progress.
  assert ((Qnum p <=? 0) = false) as -> by lia.
  assert (recordable db vendorId p = true) as ->.
  { unfold recordable, in_int_range in *. rewrite Hv, Hhas, orb_true_r.
    assert ((0 <? Qnum p) = true) as -> by lia.
    pose proof (round_half_away_nonnegative (Qnum p) (Qden p)) as Hnn.
    unfold stored_progress in *.
    assert ((-2147483648 <=? round_half_away (Qnum p) (Qden p))
            && (round_half_away (Qnum p) (Qden p) <=? 2147483647) = true) as ->
        by (apply andb_true_iff; lia).
    reflexivity. }
  cbn [fst snd]. repeat split.
  - rewrite get_vendor_progress_total. cbn [snd]. unfold total_progress.
    rewrite logs_of_vendor_append, map_app. cbn [map ProgressLog.progress].
    now rewrite total_text_app_one.
  - intros n ->. apply stored_progress_whole.
Qed.

(** A number that rounds to an integer beyond the range of [INT] passes
    the guard but is refused by the column: the answer is 500 and
    nothing is recorded. *)
Theorem progress_beyond_int_500 (db : DB) (vendorId now : Z) (p : Qc) :
  2147483647 < stored_progress p ->
  post_vendor_progress P db vendorId now (obj [("newProgress", JNum p)])
  = (db, res 500 (Message "Failed to update progress.")).
Proof.
  intros Hbig. rewrite post_number_progress.
  assert (0 < Qnum p) as Hpos.
  { destruct (Z.lt_ge_cases 0 (Qnum p)) as [H|H]; [exact H|].
    pose proof (round_half_away_nonpositive (Qnum p) (Qden p) H) as Hle.
    unfold stored_progress in Hbig. lia. }
  assert ((Qnum p <=? 0) = false) as -> by lia.
  assert (recordable db vendorId p = false) as ->; [|reflexivity].
  unfold recordable, in_int_range.
  assert ((stored_progress p <=? 2147483647) = false) as -> by lia.
  now rewrite !andb_false_r.
Qed.

Lemma logs_of_other_vendor (db db' : DB) (v w ts : Z) (progress : jsval) :
  insert_progress_log P db v progress ts = inr db' ->
  v <> w -> logs_of_vendor db' w = logs_of_vendor db w.
Proof.
  intros E Hvw. apply insert_progress_log_ok in E.
  destruct E as (p & _ & _ & _ & ->). unfold logs_of_vendor; cbn.
  rewrite filter_app; cbn. apply Z.eqb_neq in Hvw. rewrite Hvw.
  apply app_nil_r.
Qed.

(** Whatever is posted to the progress route of one vendor, and whatever
    the answer, the total progress of every other vendor, the vendors
    table and the users table stay as they are. *)
Theorem progress_of_other_vendors_untouched (db : DB) (v w now : Z)
  (body : object) :
  v <> w ->
  let db' := fst (post_vendor_progress P db v now body) in
  snd (get_vendor_progress db' w) = snd (get_vendor_progress db w)
  /\ vendors db' = vendors db /\ users db' = users db.
Proof.
  intros Hvw. unfold post_vendor_progress.
  destruct (invalid_progress P (body "newProgress")); [now cbn|].
  destruct (insert_progress_log P db v (body "newProgress") now) as [e|db'] eqn:E;
    [now cbn|].
  cbn [fst]. rewrite !get_vendor_progress_total. cbn [snd].
  rewrite (logs_of_other_vendor db db' v w now _ E Hvw).
  apply insert_progress_log_ok in E. destruct E as (p & _ & _ & _ & ->).
  now cbn.
Qed.

(** ** Payout *)

Lemma has_vendor_update_is_paid (db : DB) (v w : Z) :
  has_vendor (update_vendor_is_paid db v) w = has_vendor db w.
Proof.
  apply has_vendor_map_id. now apply (update_vendor_is_paid_columns Vendor.id).
Qed.

Lemma insert_progress_log_after_payout (db : DB) (v w ts : Z) (progress : jsval) :
  insert_progress_log P (update_vendor_is_paid db v) w progress ts
  = match insert_progress_log P db w progress ts with
    | inl e => inl e
    | inr db' => inr (update_vendor_is_paid db' v)
    end.
Proof.
  unfold insert_progress_log.
  destruct (int_in_range w) as [e|w']; cbn [bind]; [reflexivity|].
  destruct (store_int P progress) as [e|p]; cbn [bind]; [reflexivity|].
  rewrite has_vendor_update_is_paid.
  cbn [FOREIGN_KEY_CHECKS update_vendor_is_paid].
  destruct (FOREIGN_KEY_CHECKS db && negb (has_vendor db w')); reflexivity.
Qed.

(** A payout and a progress request commute: paying vendor [v] before
    or after a post to the progress route of vendor [w] gives the same
    database and the same answer to the post.  A payout never looks at
    progress nor changes it: every total is the same after it. *)
Theorem payout_and_progress_commute (db : DB) (v w now : Z) (body : object) :
  post_vendor_progress P (fst (post_vendor_payout db v)) w now body
  = (fst (post_vendor_payout (fst (post_vendor_progress P db w now body)) v),
     snd (post_vendor_progress P db w now body))
  /\ get_vendor_progress (fst (post_vendor_payout db v)) w
     = (fst (post_vendor_payout db v), snd (get_vendor_progress db w)).
Proof.
  split; [|reflexivity].
  unfold post_vendor_progress, post_vendor_payout. cbn [fst].
  destruct (invalid_progress P (body "newProgress")); [reflexivity|].
  rewrite insert_progress_log_after_payout.
  destruct (insert_progress_log P db w (body "newProgress") now); reflexivity.
Qed.

(** ** Rows are only ever added *)

Lemma unpaid_update_is_paid (db : DB) (v : Z) :
  map unpaid (vendors (update_vendor_is_paid db v)) = map unpaid (vendors db).
Proof. now apply (update_vendor_is_paid_columns unpaid). Qed.

Lemma paid_stays_after_update (db : DB) (vendorId : Z) (v : Vendor.t) :
  In v (vendors db) -> Vendor.is_paid v = true ->
  In v (vendors (update_vendor_is_paid db vendorId)).
Proof.
  intros Hv Hpaid. cbn. apply in_map_iff. exists v. split; [|exact Hv].
  destruct (Vendor.id v =? vendorId); [|reflexivity].
  rewrite <- Hpaid. apply set_is_paid_same.
Qed.

Lemma handle_only_adds (db : DB) (req : request) :
  is_reset req = false ->
  let db' := fst (handle P db req) in
  (exists us, users db' = users db ++ us)
  /\ (exists vs, map unpaid (vendors db') = map unpaid (vendors db) ++ vs)
  /\ (exists ls, progress_logs db' = progress_logs db ++ ls)
  /\ (forall v, In v (vendors db) -> Vendor.is_paid v = true ->
                In v (vendors db')).
Proof.
  assert (let db' := db in
          (exists us, users db' = users db ++ us)
          /\ (exists vs, map unpaid (vendors db') = map unpaid (vendors db) ++ vs)
          /\ (exists ls, progress_logs db' = progress_logs db ++ ls)
          /\ (forall v, In v (vendors db) -> Vendor.is_paid v = true ->
                        In v (vendors db'))) as Hsame.
  { cbn. repeat split; try (exists []; now rewrite app_nil_r). auto. }
  destruct req as [now salt body|body| |now body|v|v now body|v|];
    cbn [handle is_reset]; intros Hnr; try discriminate.
  - unfold post_signup. destruct (_ || _); [exact Hsame|].
    destruct (bind _ _) as [e|db'] eqn:E;
      [destruct (is_ER_DUP_ENTRY e); exact Hsame|].
    destruct (bcrypt_hash_js P (body "password") salt); cbn [bind] in E;
      [discriminate|].
    apply insert_user_ok in E.
    destruct E as (n' & e' & h' & r' & _ & _ & _ & _ & _ & ->). cbn.
    repeat split; eauto; exists []; now rewrite app_nil_r.
  - rewrite post_login_database. exact Hsame.
  - exact Hsame.
  - unfold post_add_vendor. destruct (_ || _); [exact Hsame|].
    destruct (insert_vendor _ _ _ _ _ _ _) as [e|[db' i]] eqn:E; [exact Hsame|].
    apply insert_vendor_ok in E.
    destruct E as (n' & w' & g' & r' & _ & _ & _ & _ & _ & _ & ->). cbn.
    repeat split; try (exists []; now rewrite app_nil_r).
    + rewrite map_app. eauto.
    + intros v Hv _. apply in_or_app. now left.
  - exact Hsame.
  - unfold post_vendor_progress. destruct (invalid_progress _ _); [exact Hsame|].
    destruct (insert_progress_log _ _ _ _ _) as [e|db'] eqn:E; [exact Hsame|].
    apply insert_progress_log_ok in E. destruct E as (p & _ & _ & _ & ->). cbn.
    repeat split; eauto; exists []; now rewrite app_nil_r.
  - cbn [post_vendor_payout fst]. repeat split.
    + exists []. now rewrite app_nil_r.
    + exists []. now rewrite unpaid_update_is_paid, app_nil_r.
    + exists []. now rewrite app_nil_r.
    + intros u Hu Hpaid. now apply paid_stays_after_update.
Qed.

Lemma serve_cons (db : DB) (r : request) (reqs : list request) :
  serve P db (r :: reqs) = serve P (fst (handle P db r)) reqs.
Proof. reflexivity. Qed.

(** Through any sequence of requests without a reset, rows are only ever
    added: the users table and the progress log keep their rows, in
    order and unchanged, in front of the new ones; so does the vendors
    table up to the paid flag; and a vendor that is paid stays in the
    table as it is, paid. *)
Theorem tables_only_grow_without_reset (reqs : list request) (db : DB) :
  forallb (fun r => negb (is_reset r)) reqs = true ->
  let db' := serve P db reqs in
  (exists us, users db' = users db ++ us)
  /\ (exists vs, map unpaid (vendors db') = map unpaid (vendors db) ++ vs)
  /\ (exists ls, progress_logs db' = progress_logs db ++ ls)
  /\ (forall v, In v (vendors db) -> Vendor.is_paid v = true ->
                In v (vendors db')).
Proof.
  revert db. induction reqs as [|r reqs IH]; intros db Hnr.
  - cbn. repeat split; try (exists []; now rewrite app_nil_r). auto.
  - cbn [forallb] in Hnr. apply andb_true_iff in Hnr. destruct Hnr as [Hr Hnr].
    apply negb_true_iff in Hr.
    destruct (handle_only_adds db r Hr) as ((us1 & Hu1) & (vs1 & Hv1)
      & (ls1 & Hl1) & Hp1).
    destruct (IH (fst (handle P db r)) Hnr) as ((us2 & Hu2) & (vs2 & Hv2)
      & (ls2 & Hl2) & Hp2).
    cbv zeta. rewrite serve_cons. repeat split.
    + exists (us1 ++ us2). now rewrite Hu2, Hu1, app_assoc.
    + exists (vs1 ++ vs2). now rewrite Hv2, Hv1, app_assoc.
    + exists (ls1 ++ ls2). now rewrite Hl2, Hl1, app_assoc.
    + intros v Hv Hpaid. apply Hp2; [now apply Hp1 | exact Hpaid].
Qed.

End Properties.

(** * The properties on concrete requests *)

(** The sample databases are what the server reaches from a new database. *)
Example acme_db_is_served :
  serve plain_platform empty_db [POST_add_vendor 0 acme_body] = acme_db.
Proof. reflexivity. Qed.

Example alice_db_is_served :
  serve plain_platform acme_db
    [POST_signup 0 "salt" (signup_body "Alice" "alice@example.com" "producer" "secret")]
  = alice_db.
Proof. reflexivity. Qed.

Example beta_db_is_served :
  serve plain_platform alice_db
    [POST_add_vendor 9
       (obj [("name", JStr "beta gas"); ("walletAddress", JStr "0xDEF");
             ("milestoneGoal", JStr "500"); ("rewardAmount", JNum 100)]);
     POST_signup 7 "salt" (signup_body "Bob" "bob@example.com" "auditor" "pw");
     POST_vendor_progress 2 11 (obj [("newProgress", JNum 40)])]
  = beta_db.
Proof. reflexivity. Qed.

Lemma beta_db_consistent : consistent beta_db.
Proof.
  unfold consistent; cbn. split; [reflexivity|].
  split; [repeat constructor; cbn; intuition discriminate|].
  split; [repeat (constructor; [cbn; tauto|]); constructor|].
  split; [repeat constructor; cbn; intuition discriminate|].
  split; [repeat constructor; cbn; intuition discriminate|].
  split; repeat constructor.
Qed.

Lemma beta_db_unique_keys : unique_keys plain_platform beta_db.
Proof.
  split; cbn; repeat constructor; cbn; intuition discriminate.
Qed.

Lemma plain_platform_bcrypt (p s : string) :
  bcrypt_compare plain_platform p (bcrypt_hash plain_platform p s) = true.
Proof. cbn. apply String.eqb_refl. Qed.

Lemma plain_platform_roles : NoDup (map (collate plain_platform) role_enum).
Proof. cbn. repeat constructor; cbn; intuition discriminate. Qed.

(** ** Total progress *)

Lemma total_progress_zero_without_entries_witness :
  progress_logs beta_db <> []
  /\ get_vendor_progress beta_db 1 = (beta_db, res 200 (TotalProgress (JNum 0))).
Proof.
  split; [discriminate|].
  apply (total_progress_zero_without_entries beta_db 1).
  intros l [<-|[]]. cbn. discriminate.
Defined.

Lemma stored_progress_is_summed_in_any_order_witness :
  Forall (fun r => status r = 200)
    (snd (record_all plain_platform beta_db 1
            [(10, number_of_Z 300); (20, Q2Qc (901 # 2))]))
  /\ snd (get_vendor_progress
            (fst (record_all plain_platform beta_db 1
                    [(10, number_of_Z 300); (20, Q2Qc (901 # 2))])) 1)
     = res 200 (TotalProgress (JStr "751"))
  /\ snd (get_vendor_progress
            (fst (record_all plain_platform beta_db 1
                    [(30, Q2Qc (901 # 2)); (40, number_of_Z 300)])) 1)
     = res 200 (TotalProgress (JStr "751")).
Proof.
  assert (forall l, In l (progress_logs beta_db) -> ProgressLog.vendor_id l <> 1)
    as Hnone by (intros l [<-|[]]; cbn; discriminate).
  assert (Forall (fun r => status r = 200)
            (snd (record_all plain_platform beta_db 1
                    [(10, number_of_Z 300); (20, Q2Qc (901 # 2))])))
    as Hall by (vm_compute; repeat constructor).
  assert (Permutation (map snd [(10, number_of_Z 300); (20, Q2Qc (901 # 2))])
                      (map snd [(30, Q2Qc (901 # 2)); (40, number_of_Z 300)]))
    as Hperm by apply perm_swap.
  destruct (stored_progress_is_summed_in_any_order plain_platform beta_db 1
              [(10, number_of_Z 300); (20, Q2Qc (901 # 2))]
              [(30, Q2Qc (901 # 2)); (40, number_of_Z 300)] Hnone Hall Hperm)
    as (_ & Hget & _ & _ & Hsame).
  split; [exact Hall|]. split.
  - rewrite Hget. reflexivity.
  - rewrite Hsame, Hget. reflexivity.
Defined.

(** The total is not the sum of the values posted: 2.5 is answered 200
    and counts for 3, and the total comes as text. *)
Lemma total_progress_is_not_the_sum :
  let posted := [(10, Q2Qc (5 # 2))] in
  let db1 := fst (record_all plain_platform beta_db 1 posted) in
  (forall l, In l (progress_logs beta_db) -> ProgressLog.vendor_id l <> 1)
  /\ Forall (fun r => status r = 200)
       (snd (record_all plain_platform beta_db 1 posted))
  /\ Forall (fun p => (number_of_Z 0 < p)%Qc) (map snd posted)
  /\ snd (get_vendor_progress db1 1) = res 200 (TotalProgress (JStr "3"))
  /\ snd (get_vendor_progress db1 1)
     <> res 200 (TotalProgress (JNum (Q2Qc (5 # 2)))).
Proof.
  cbv zeta. split; [intros l [<-|[]]; cbn; discriminate|].
  split; [vm_compute; repeat constructor|].
  split; [repeat constructor|].
  split; [reflexivity | discriminate].
Qed.

Lemma boolean_progress_is_recorded_witness :
  post_vendor_progress plain_platform acme_db 1 10
    (obj [("newProgress", JBool true)])
  = (append_progress_log acme_db 1 1 10,
     res 200 (Message "Progress updated successfully!"))
  /\ snd (get_vendor_progress acme_db 1) = res 200 (TotalProgress (JNum 0))
  /\ snd (get_vendor_progress (append_progress_log acme_db 1 1 10) 1)
     = res 200 (TotalProgress (JStr "1")).
Proof.
  destruct (boolean_progress_is_recorded plain_platform acme_db 1 10)
    as (_ & Hpost & Hget); [reflexivity | reflexivity |].
  split; [exact Hpost|]. split; [reflexivity | exact Hget].
Defined.

Lemma progress_for_unknown_vendor_500_witness :
  let db := serve plain_platform empty_db [POST_add_vendor 0 acme_body] in
  db = acme_db
  /\ has_vendor db 7 = false
  /\ post_vendor_progress plain_platform db 7 10 (obj [("newProgress", JNum 5)])
     = (db, res 500 (Message "Failed to update progress.")).
Proof.
  split; [reflexivity|]. split; [reflexivity|].
  apply (progress_for_unknown_vendor_500 plain_platform empty_db
           [POST_add_vendor 0 acme_body] 7 10 (obj [("newProgress", JNum 5)])).
  - reflexivity.
  - reflexivity.
  - reflexivity.
Defined.

(** ** Adding a vendor *)

Lemma add_vendor_duplicate_wallet_500_witness :
  post_add_vendor plain_platform acme_db 5 acme_body
  = (acme_db, res 500 (Message "Failed to add vendor."))
  /\ status (snd (post_add_vendor plain_platform acme_db 5 acme_body)) <> 409.
Proof.
  apply (add_vendor_duplicate_wallet_500 plain_platform acme_db 5 acme_body
           "0xABC").
  - repeat split.
  - reflexivity.
  - left. reflexivity.
Defined.

(** ** Login *)

Lemma login_failure_reveals_registered_email_witness :
  post_login plain_platform beta_db
    (obj [("email", JStr "carol@example.com"); ("password", JNum 123456);
          ("role", JStr "producer")])
  = (beta_db, res 401 (Message "Invalid email or password."))
  /\ post_login plain_platform beta_db
       (obj [("email", JStr "alice@example.com"); ("password", JNum 123456);
             ("role", JStr "producer")])
     = (beta_db, res 500 (Message "An internal server error occurred."))
  /\ snd (post_login plain_platform beta_db
            (obj [("email", JStr "carol@example.com"); ("password", JNum 123456);
                  ("role", JStr "producer")]))
     <> snd (post_login plain_platform beta_db
               (obj [("email", JStr "alice@example.com");
                     ("password", JNum 123456); ("role", JStr "producer")])).
Proof.
  apply (login_failure_reveals_registered_email plain_platform beta_db
           (obj [("email", JStr "carol@example.com"); ("password", JNum 123456);
                 ("role", JStr "producer")])
           (obj [("email", JStr "alice@example.com"); ("password", JNum 123456);
                 ("role", JStr "producer")]) alice []).
  - repeat split.
  - repeat split.
  - reflexivity.
  - reflexivity.
  - discriminate.
Defined.


Example alice_logs_in :
  snd (post_login plain_platform alice_db
         (login_body "alice@example.com" "secret" "producer"))
  = res 200 (LoginUser "Login successful!" 1 "Alice" "alice@example.com"
               "producer").
Proof. reflexivity. Qed.

(** ** Signup *)



(** So are a boolean, the text of an index and a name in other letters. *)
Example signup_roles_accepted :
  map (fun role =>
         status (snd (post_signup plain_platform alice_db 7 "salt"
                        (obj [("name", JStr "Bob"); ("email", JStr "bob@example.com");
                              ("role", role); ("password", JStr "pw")]))))
    [JBool true; JStr "2"; JStr "Producer"; JStr "producer"; JNum 4; JStr "7"]
  = [201; 201; 201; 201; 500; 500].
Proof. reflexivity. Qed.

(** A user who signs up as [Producer] is stored as [producer], and a
    login with [Producer] is then answered 403. *)
Example signup_in_other_letters_then_login :
  let after := post_signup plain_platform alice_db 7 "salt"
                 (signup_body "Bob" "bob@example.com" "Producer" "pw") in
  status (snd after) = 201
  /\ snd (post_login plain_platform (fst after)
            (login_body "bob@example.com" "pw" "Producer"))
     = res 403 (Message
         "Access denied. Please log in through the 'producer' portal.").
Proof. split; reflexivity. Qed.

(** ** Scenario and samples *)

(** A vendor is added, progress 300 and 450 is recorded, the total is 750;
    after the payout the vendor is paid and the total is still 750. *)
Example acme_scenario :
  let db :=
    serve plain_platform empty_db
      [ POST_add_vendor 0 acme_body;
        POST_vendor_progress 1 10 (obj [("newProgress", JNum 300)]);
        POST_vendor_progress 1 20 (obj [("newProgress", JNum 450)]) ] in
  snd (get_vendor_progress db 1) = res 200 (TotalProgress (JStr "750"))
  /\ map Vendor.is_paid (vendors (fst (post_vendor_payout db 1))) = [true]
  /\ snd (get_vendor_progress (fst (post_vendor_payout db 1)) 1)
     = res 200 (TotalProgress (JStr "750")).
Proof. repeat split. Qed.

(** What the guard of the progress route does with some values. *)
Example progress_guard_samples :
  map (invalid_progress plain_platform)
    [JUndefined; JNull; JBool false; JNum 0; JNum (-3); JStr ""; JStr "abc";
     JNum 5; JNum (Q2Qc (2 # 5)); JStr "5"; JBool true]
  = [true; true; true; true; true; true; true; false; false; false; false].
Proof. reflexivity. Qed.

(** What is stored for some numbers the guard lets through. *)
Example stored_progress_samples :
  map stored_progress
    [Q2Qc (2 # 5); Q2Qc (1 # 2); Q2Qc (5 # 2); number_of_Z 7;
     Q2Qc (21474836474 # 10); Q2Qc (4294967295 # 2)]
  = [0; 1; 3; 7; 2147483647; 2147483648].
Proof. reflexivity. Qed.

(** The vendor list goes by the sort keys, not by the bytes of the names. *)
Example vendors_of_beta_db_listed :
  map Vendor.name
    (select_vendors_order_by_name plain_platform
       (fst (post_add_vendor plain_platform beta_db 12
               (obj [("name", JStr "Zeta H2"); ("walletAddress", JStr "0x123");
                     ("milestoneGoal", JNum 10); ("rewardAmount", JNum 1)]))))
  = ["Acme H2"; "beta gas"; "Zeta H2"].
Proof. reflexivity. Qed.

(** * The further properties on concrete requests *)

Lemma signup_201_appends_one_user_witness :
  exists name email password role,
    store_varchar plain_platform 255
      (signup_body "Carol" "carol@example.com" "Auditor" "pw" "name") = ok name
    /\ store_varchar plain_platform 255
         (signup_body "Carol" "carol@example.com" "Auditor" "pw" "email")
       = ok email
    /\ signup_body "Carol" "carol@example.com" "Auditor" "pw" "password"
       = JStr password
    /\ store_enum plain_platform role_enum
         (signup_body "Carol" "carol@example.com" "Auditor" "pw" "role")
       = ok role
    /\ In role (enum_values role_enum)
    /\ ((forall t, signup_body "Carol" "carol@example.com" "Auditor" "pw" "role"
                   <> JStr t) -> In role role_enum)
    /\ (forall u, In u (users beta_db) ->
          collate plain_platform (User.email u) <> collate plain_platform email)
    /\ users (fst (post_signup plain_platform beta_db 7 "salt"
                     (signup_body "Carol" "carol@example.com" "Auditor" "pw")))
       = users beta_db ++
         [{| User.id := users_auto_increment beta_db; User.name := name;
             User.email := email;
             User.password_hash := bcrypt_hash plain_platform password "salt";
             User.role := role; User.created_at := 7 |}]
    /\ vendors (fst (post_signup plain_platform beta_db 7 "salt"
                       (signup_body "Carol" "carol@example.com" "Auditor" "pw")))
       = vendors beta_db
    /\ progress_logs (fst (post_signup plain_platform beta_db 7 "salt"
                             (signup_body "Carol" "carol@example.com" "Auditor" "pw")))
       = progress_logs beta_db.
Proof.
  apply (signup_201_appends_one_user plain_platform beta_db 7 "salt"
           (signup_body "Carol" "carol@example.com" "Auditor" "pw")).
  reflexivity.
Defined.

Lemma signup_then_login_witness :
  post_login plain_platform
    (fst (post_signup plain_platform beta_db 7 "salt"
            (signup_body "Carol" "carol@example.com" "auditor" "pw")))
    (login_body "carol@example.com" "pw" "auditor")
  = (fst (post_signup plain_platform beta_db 7 "salt"
            (signup_body "Carol" "carol@example.com" "auditor" "pw")),
     res 200 (LoginUser "Login successful!" 3 "Carol" "carol@example.com"
                "auditor")).
Proof.
  apply (signup_then_login plain_platform beta_db 7 "salt" "Carol"
           "carol@example.com" "auditor" "pw").
  - exact plain_platform_bcrypt.
  - exact plain_platform_roles.
  - right. right. left. reflexivity.
  - reflexivity.
Defined.

Lemma signup_stored_email_409_witness :
  post_signup plain_platform alice_db 7 "salt"
    (signup_body "Eve" "alice@example.com" "auditor" "pw")
  = (alice_db, res 409 (Message "An account with this email already exists.")).
Proof.
  apply (signup_stored_email_409 plain_platform alice_db 7 "salt" "Eve"
           "alice@example.com" "auditor" "pw");
    try discriminate; try (cbn; lia).
  - right. right. left. reflexivity.
  - left. reflexivity.
Defined.


Lemma login_200_only_for_matching_user_witness :
  exists user password,
    In user (users alice_db)
    /\ varchar_eq plain_platform (User.email user)
         (login_body "alice@example.com" "secret" "producer" "email") = true
    /\ login_body "alice@example.com" "secret" "producer" "password"
       = JStr password
    /\ bcrypt_compare plain_platform password (User.password_hash user) = true
    /\ login_body "alice@example.com" "secret" "producer" "role"
       = JStr (User.role user)
    /\ post_login plain_platform alice_db
         (login_body "alice@example.com" "secret" "producer")
       = (alice_db,
          res 200 (LoginUser "Login successful!" (User.id user)
                     (User.name user) (User.email user) (User.role user))).
Proof.
  apply (login_200_only_for_matching_user plain_platform alice_db
           (login_body "alice@example.com" "secret" "producer")).
  reflexivity.
Defined.

Lemma login_password_not_a_string_witness :
  post_login plain_platform alice_db
    (obj [("email", JStr "alice@example.com"); ("password", JNum 123456);
          ("role", JStr "producer")])
  = (alice_db, res 500 (Message "An internal server error occurred."))
  /\ post_login plain_platform alice_db
       (obj [("email", JStr "bob@example.com"); ("password", JNum 123456);
             ("role", JStr "producer")])
     = (alice_db, res 401 (Message "Invalid email or password.")).
Proof.
  split.
  - apply (login_password_not_a_string plain_platform alice_db
             (obj [("email", JStr "alice@example.com"); ("password", JNum 123456);
                   ("role", JStr "producer")])).
    + repeat split.
    + discriminate.
  - apply (login_password_not_a_string plain_platform alice_db
             (obj [("email", JStr "bob@example.com"); ("password", JNum 123456);
                   ("role", JStr "producer")])).
    + repeat split.
    + discriminate.
Defined.

(** Two users are stored, and a signup with the email of one of them in
    other letters has been refused: the query selects one user at most. *)
Lemma string_email_selects_at_most_one_witness :
  (List.length
     (select_users_by_email plain_platform
        (serve plain_platform beta_db
           [POST_signup 8 "salt"
              (signup_body "Al" "Alice@Example.com" "auditor" "x")])
        (JStr "ALICE@EXAMPLE.COM")) <= 1)%nat.
Proof.
  apply (string_email_selects_at_most_one plain_platform beta_db
           [POST_signup 8 "salt"
              (signup_body "Al" "Alice@Example.com" "auditor" "x")]
           "ALICE@EXAMPLE.COM").
  exact beta_db_unique_keys.
Defined.

Example email_in_other_letters :
  select_users_by_email plain_platform beta_db (JStr "ALICE@EXAMPLE.COM")
  = [alice]
  /\ snd (post_signup plain_platform beta_db 8 "salt"
            (signup_body "Al" "Alice@Example.com" "auditor" "x"))
     = res 409 (Message "An account with this email already exists.").
Proof. split; reflexivity. Qed.

Lemma unsuccessful_request_changes_nothing_witness :
  fst (handle plain_platform alice_db
         (POST_add_vendor 9 acme_body)) = alice_db.
Proof.
  apply (unsuccessful_request_changes_nothing plain_platform alice_db
           (POST_add_vendor 9 acme_body)); cbn; discriminate.
Defined.

Lemma added_vendor_is_new_witness :
  let body := obj [("name", JStr "Gamma"); ("walletAddress", JStr "0x999");
                   ("milestoneGoal", JStr "500"); ("rewardAmount", JNum 100)] in
  let db' := fst (post_add_vendor plain_platform beta_db 9 body) in
  exists v,
    vendors db' = vendors beta_db ++ [v]
    /\ snd (post_add_vendor plain_platform beta_db 9 body)
       = res 201 (VendorAdded "Vendor added successfully!" (Vendor.id v))
    /\ has_vendor beta_db (Vendor.id v) = false
    /\ has_vendor db' (Vendor.id v) = true
    /\ Vendor.is_paid v = false
    /\ ~ In (Vendor.wallet_address v)
         (map Vendor.wallet_address (vendors beta_db))
    /\ get_vendor_progress db' (Vendor.id v)
       = (db', res 200 (TotalProgress (JNum 0))).
Proof.
  apply (added_vendor_is_new plain_platform beta_db 9
           (obj [("name", JStr "Gamma"); ("walletAddress", JStr "0x999");
                 ("milestoneGoal", JStr "500"); ("rewardAmount", JNum 100)])).
  - exact beta_db_consistent.
  - reflexivity.
Defined.


(** A goal of 2147483647.4 and a reward of 99999999.994 round into the
    range and are accepted. *)
Example add_vendor_rounded_into_range :
  snd (post_add_vendor plain_platform alice_db 9
         (obj [("name", JStr "Beta Gas"); ("walletAddress", JStr "0xDEF");
               ("milestoneGoal", JNum (Q2Qc (21474836474 # 10)));
               ("rewardAmount", JNum (Q2Qc (99999999994 # 1000)))]))
  = res 201 (VendorAdded "Vendor added successfully!" 2).
Proof. reflexivity. Qed.

Lemma positive_number_is_added_to_total_witness :
  let db := fst (record_all plain_platform beta_db 1 [(10, number_of_Z 300)]) in
  let body := obj [("newProgress", JNum (Q2Qc (5 # 2)))] in
  let db' := fst (post_vendor_progress plain_platform db 1 20 body) in
  snd (post_vendor_progress plain_platform db 1 20 body)
  = res 200 (Message "Progress updated successfully!")
  /\ map ProgressLog.progress (progress_logs db') = [40; 300; 3]
  /\ snd (get_vendor_progress db' 1) = res 200 (TotalProgress (JStr "303")).
Proof.
  destruct (positive_number_is_added_to_total plain_platform
              (fst (record_all plain_platform beta_db 1 [(10, number_of_Z 300)]))
              1 20 (Q2Qc (5 # 2))) as (Hr & Hl & Hg & _);
    try reflexivity.
  - vm_compute. discriminate.
  - cbv zeta. rewrite Hr, Hl, Hg. repeat split.
Defined.

Lemma progress_beyond_int_500_witness :
  post_vendor_progress plain_platform acme_db 1 10
    (obj [("newProgress", JNum (Q2Qc (4294967295 # 2)))])
  = (acme_db, res 500 (Message "Failed to update progress.")).
Proof.
  apply (progress_beyond_int_500 plain_platform acme_db 1 10
           (Q2Qc (4294967295 # 2))).
  reflexivity.
Defined.

(** 2147483647.4 rounds into the range and is recorded. *)
Example progress_rounded_into_range :
  snd (post_vendor_progress plain_platform acme_db 1 10
         (obj [("newProgress", JNum (Q2Qc (21474836474 # 10)))]))
  = res 200 (Message "Progress updated successfully!").
Proof. reflexivity. Qed.

Lemma progress_of_other_vendors_untouched_witness :
  let db' := fst (post_vendor_progress plain_platform beta_db 1 20
                    (obj [("newProgress", JNum 5)])) in
  snd (get_vendor_progress db' 2) = snd (get_vendor_progress beta_db 2)
  /\ vendors db' = vendors beta_db /\ users db' = users beta_db.
Proof.
  apply (progress_of_other_vendors_untouched plain_platform beta_db 1 2 20
           (obj [("newProgress", JNum 5)])).
  discriminate.
Defined.

Lemma tables_only_grow_without_reset_witness :
  let db' := serve plain_platform alice_db
               [POST_vendor_progress 1 10 (obj [("newProgress", JNum 300)]);
                POST_vendor_payout 1;
                POST_signup 7 "salt"
                  (signup_body "Bob" "bob@example.com" "auditor" "pw")] in
  (exists us, users db' = users alice_db ++ us)
  /\ (exists vs, map unpaid (vendors db') = map unpaid (vendors alice_db) ++ vs)
  /\ (exists ls, progress_logs db' = progress_logs alice_db ++ ls)
  /\ (forall v, In v (vendors alice_db) -> Vendor.is_paid v = true ->
                In v (vendors db')).
Proof.
  apply (tables_only_grow_without_reset plain_platform
           [POST_vendor_progress 1 10 (obj [("newProgress", JNum 300)]);
            POST_vendor_payout 1;
            POST_signup 7 "salt"
              (signup_body "Bob" "bob@example.com" "auditor" "pw")] alice_db).
  reflexivity.
Defined.

Lemma serve_consistent_witness :
  consistent
    (serve plain_platform empty_db
       [POST_add_vendor 0 acme_body;
        POST_vendor_progress 1 10 (obj [("newProgress", JNum 300)]);
        POST_add_vendor 1 acme_body;
        POST_vendor_payout 1;
        POST_signup 7 "salt" (signup_body "Bob" "bob@example.com" "auditor" "pw")]).
Proof.
  apply (serve_consistent plain_platform). exact empty_db_consistent.
Defined.
